(** * Regression report view: [fmt], [explain], the report tree and the PDF export

    A shallow embedding of [src/App.tsx].  JavaScript strings are sequences of
    UTF-16 code units, JavaScript numbers are IEEE 754 binary64 values
    ([spec_float] of the Standard Library with [prec = 53], [emax = 1024]),
    objects used as maps are insertion-ordered property lists, and the value
    returned by a component is a tree of React elements. *)

From Stdlib Require Import ZArith NArith Bool List String Ascii Lia.
From Stdlib Require Import Floats.SpecFloat.
From Stdlib Require DecimalPos DecimalN.
From Stdlib Require Import Permutation Sorted.
Import ListNotations.

Set Warnings "-register-all".

(** ** JavaScript strings *)

Module JsString.

(** A code unit is a 16-bit unsigned integer; a string is a finite sequence
    of code units. *)
Definition code_unit := N.
Definition jsstring := list code_unit.

Definition cu_eqb (a b : code_unit) : bool := N.eqb a b.

Definition star_cu : code_unit := 42%N.
Definition plus_cu : code_unit := 43%N.
Definition minus_cu : code_unit := 45%N.
Definition dot_cu : code_unit := 46%N.
Definition zero_cu : code_unit := 48%N.

Fixpoint eqb (s t : jsstring) : bool :=
  match s, t with
  | [], [] => true
  | a :: s', b :: t' => cu_eqb a b && eqb s' t'
  | _, _ => false
  end.

(** Source literals are written in UTF-8 in the [.tsx] file; [utf16] turns
    the bytes of such a literal into the code units the engine holds. *)
Definition cont (b : N) : N := N.land b 63.

Definition of_code_point (cp : N) : jsstring :=
  if (cp <? 65536)%N then [cp]
  else
    let v := (cp - 65536)%N in
    [(55296 + N.shiftr v 10)%N; (56320 + N.land v 1023)%N].

Fixpoint utf16 (bs : list N) : jsstring :=
  match bs with
  | [] => []
  | b1 :: r1 =>
    if (b1 <? 128)%N then b1 :: utf16 r1
    else match r1 with
    | [] => [65533%N]
    | b2 :: r2 =>
      if (b1 <? 224)%N then
        ((N.land b1 31) * 64 + cont b2)%N :: utf16 r2
      else match r2 with
      | [] => [65533%N]
      | b3 :: r3 =>
        if (b1 <? 240)%N then
          ((N.land b1 15) * 4096 + cont b2 * 64 + cont b3)%N :: utf16 r3
        else match r3 with
        | [] => [65533%N]
        | b4 :: r4 =>
          of_code_point
            ((N.land b1 7) * 262144 + cont b2 * 4096 + cont b3 * 64 + cont b4)%N
            ++ utf16 r4
        end
      end
    end
  end.

Definition js (s : string) : jsstring :=
  utf16 (List.map N_of_ascii (list_ascii_of_string s)).
Arguments js s%_string.

(** [s.startsWith(t)] *)
Fixpoint startsWith (s t : jsstring) {struct t} : bool :=
  match t, s with
  | [], _ => true
  | b :: t', a :: s' => cu_eqb a b && startsWith s' t'
  | _ :: _, [] => false
  end.

(** [s.slice(n)] for a non-negative [n] *)
Definition slice (s : jsstring) (n : nat) : jsstring := skipn n s.

(** [s[i]]: the one-unit string at index [i], or [undefined] ([None]) past
    the end. *)
Definition index (s : jsstring) (i : nat) : option jsstring :=
  match nth_error s i with
  | Some c => Some [c]
  | None => None
  end.

(** [v === lit] where [v] is a string or [undefined] *)
Definition strict_eq (v : option jsstring) (lit : jsstring) : bool :=
  match v with
  | Some s => eqb s lit
  | None => false
  end.

(** [parts.join(sep)] *)
Fixpoint join (sep : jsstring) (parts : list jsstring) : jsstring :=
  match parts with
  | [] => []
  | [p] => p
  | p :: rest => p ++ sep ++ join sep rest
  end.

(** [s.split(sep)] for a separator of two code units [a], [b] *)
Fixpoint split2 (a b : code_unit) (s : jsstring) : list jsstring :=
  match s with
  | [] => [[]]
  | c :: r =>
    match r with
    | d :: r' =>
      if cu_eqb c a && cu_eqb d b then [] :: split2 a b r'
      else match split2 a b r with
           | p :: ps => (c :: p) :: ps
           | [] => [[c]]
           end
    | [] => [[c]]
    end
  end.

End JsString.
Import JsString.

(** ** Significance codes: [explain] *)

Definition phrase_neg : jsstring := js "старший коэффициент < 0".
Definition phrase_sig05 : jsstring := js "значимо лучше при α=0.05".
Definition phrase_not05 : jsstring := js "не лучше при α=0.05".
Definition phrase_sig01 : jsstring := js "значимо лучше при α=0.01".
Definition phrase_not01 : jsstring := js "не лучше при α=0.01".

(** The array [p] is threaded as a list; [p.push(v)] appends at the end. *)
Definition push (p : list jsstring) (v : jsstring) : list jsstring := p ++ [v].

Definition explain_parts (code : jsstring) : list jsstring :=
  let p : list jsstring := [] in
  let '(p, code) :=
    if startsWith code (js "*")
    then (push p phrase_neg, slice code 1)
    else (p, code) in
  let p := push p (if strict_eq (index code 0) (js "+")
                   then phrase_sig05 else phrase_not05) in
  let p := push p (if strict_eq (index code 1) (js "+")
                   then phrase_sig01 else phrase_not01) in
  p.

Definition explain (code : jsstring) : jsstring :=
  join (js ", ") (explain_parts code).

(** The invariant of the data model: [[*]?[+-][+-]]. *)
Definition is_sign (c : code_unit) : bool :=
  cu_eqb c plus_cu || cu_eqb c minus_cu.

Definition code_ok (code : jsstring) : bool :=
  match code with
  | [a; b] => is_sign a && is_sign b
  | [s; a; b] => cu_eqb s star_cu && is_sign a && is_sign b
  | _ => false
  end.

(** The phrase for each significance position, by the character there. *)
Definition comma_cu : code_unit := 44%N.
Definition space_cu : code_unit := 32%N.

Definition phrase05 (c : code_unit) : jsstring :=
  if cu_eqb c plus_cu then phrase_sig05 else phrase_not05.
Definition phrase01 (c : code_unit) : jsstring :=
  if cu_eqb c plus_cu then phrase_sig01 else phrase_not01.

(** The phrases the specification lists for a well-formed code. *)
Definition spec_parts (code : jsstring) : list jsstring :=
  match code with
  | [a; b] => [phrase05 a; phrase01 b]
  | [_; a; b] => [phrase_neg; phrase05 a; phrase01 b]
  | _ => []
  end.

(** What a character position counts as: ['+'] only when it holds ['+']. *)
Definition sign_at (s : jsstring) (i : nat) : code_unit :=
  match nth_error s i with
  | Some c => if cu_eqb c plus_cu then plus_cu else minus_cu
  | None => minus_cu
  end.

(** The code after the optional leading ['*']. *)
Definition rest_of (code : jsstring) : jsstring :=
  if startsWith code (js "*") then slice code 1 else code.

(** The well-formed code a string is read as. *)
Definition normalize (code : jsstring) : jsstring :=
  if startsWith code (js "*")
  then star_cu :: [sign_at (slice code 1) 0; sign_at (slice code 1) 1]
  else [sign_at code 0; sign_at code 1].

(** ** JavaScript numbers *)

Module JsNumber.

Definition number := spec_float.
Definition prec : Z := 53.
Definition emax : Z := 1024.

Definition is_finite (x : number) : bool :=
  match x with
  | S754_zero _ | S754_finite _ _ _ => true
  | _ => false
  end.

(** The Number value of the positive rational [p / q]: round to nearest,
    ties to even. *)
Definition round_ratio (s : bool) (p q : positive) : number :=
  let '(mz, ez, lz) := SFdiv_core_binary prec emax (Zpos p) 0 (Zpos q) 0 in
  binary_round_aux prec emax s mz ez lz.

(** The Number value of the decimal literal [d * 10^e], as for a numeric
    literal of the source. *)
Definition of_decimal (neg : bool) (d : N) (e : Z) : number :=
  match d with
  | N0 => S754_zero neg
  | Npos p =>
    if (0 <=? e)%Z then round_ratio neg (p * Z.to_pos (10 ^ e)) 1
    else round_ratio neg p (Z.to_pos (10 ^ (- e)))
  end.

Definition Math_abs (x : number) : number := SFabs x.
Definition lt (x y : number) : bool := SFltb x y.
Definition sub (x y : number) : number := SFsub prec emax x y.
Definition mul (x y : number) : number := SFmul prec emax x y.

(** *** Decimal digits *)

Definition digit (d : N) : code_unit := (zero_cu + d)%N.

Fixpoint uint_chars (u : Decimal.uint) : jsstring :=
  match u with
  | Decimal.Nil => []
  | Decimal.D0 r => digit 0 :: uint_chars r
  | Decimal.D1 r => digit 1 :: uint_chars r
  | Decimal.D2 r => digit 2 :: uint_chars r
  | Decimal.D3 r => digit 3 :: uint_chars r
  | Decimal.D4 r => digit 4 :: uint_chars r
  | Decimal.D5 r => digit 5 :: uint_chars r
  | Decimal.D6 r => digit 6 :: uint_chars r
  | Decimal.D7 r => digit 7 :: uint_chars r
  | Decimal.D8 r => digit 8 :: uint_chars r
  | Decimal.D9 r => digit 9 :: uint_chars r
  end.

(** The decimal representation of a non-negative integer, ["0"] for zero. *)
Definition decimal (n : N) : jsstring := uint_chars (N.to_uint n).

Definition zeros (k : nat) : jsstring := repeat zero_cu k.

(** *** [Number::toString] (radix 10) *)

(** A positive finite value [m * 2^e] as the fraction [num / den]. *)
Definition num_of (m : positive) (e : Z) : positive :=
  if (0 <=? e)%Z then m * Z.to_pos (2 ^ e) else m.
Definition den_of (e : Z) : positive :=
  if (0 <=? e)%Z then 1 else Z.to_pos (2 ^ (- e)).

(** [p / q * 10^t] as a fraction *)
Definition scale10 (p q : positive) (t : Z) : positive * positive :=
  if (0 <=? t)%Z then ((p * Z.to_pos (10 ^ t))%positive, q)
  else (p, (q * Z.to_pos (10 ^ (- t)))%positive).

(** The integer [n] with [10^(n-1) <= p/q < 10^n].  For [q <= p] the
    search goes up from [n = 1] with [acc = q * 10^n]; for [p < q] it goes
    down from [n = 0] with [acc = p * 10^(1-n)].  A binary64 value lies
    between [10^(-324)] and [10^309], so 400 steps are enough. *)
Fixpoint exponent_up (fuel : nat) (p acc : positive) (n : Z) : Z :=
  match fuel with
  | O => n
  | S fuel' =>
    if (p <? acc)%positive then n
    else exponent_up fuel' p (acc * 10) (n + 1)
  end.

Fixpoint exponent_down (fuel : nat) (acc q : positive) (n : Z) : Z :=
  match fuel with
  | O => n
  | S fuel' =>
    if (q <=? acc)%positive then n
    else exponent_down fuel' (acc * 10) q (n - 1)
  end.

Definition decimal_exponent (p q : positive) : Z :=
  if (q <=? p)%positive then exponent_up 400 p (q * 10) 1
  else exponent_down 400 (p * 10) q 0.

(** Does the [k]-digit decimal [s * 10^(n-k)] denote the value [x]? *)
Definition denotes (x : number) (s : N) (t : Z) : bool :=
  SFeqb (of_decimal false s t) x.

(** One step of the search for the digits: the two [k]-digit decimals that
    enclose [p / q], the nearer one first, ties to the even one. *)
Definition candidates (p q : positive) (n : Z) (k : Z) : list N :=
  let '(a, b) := scale10 p q (k - n) in
  let lo := (Npos a / Npos b)%N in
  let r := (Npos a mod Npos b)%N in
  let hi := (lo + 1)%N in
  match (2 * r ?= Npos b)%N with
  | Lt => [lo; hi]
  | Gt => [hi; lo]
  | Eq => if N.even lo then [lo; hi] else [hi; lo]
  end.

Fixpoint shortest (fuel : nat) (x : number) (p q : positive) (n k : Z)
  : N * Z :=
  let cs := candidates p q n k in
  match List.find (fun s => denotes x s (n - k)) cs with
  | Some s => (s, k)
  | None =>
    match fuel with
    | O => (List.hd 0%N cs, k)
    | S fuel' => shortest fuel' x p q n (k + 1)
    end
  end.

(** The digits [s] and the exponent [n] of step 5 of [Number::toString]. *)
Definition digits_of (m : positive) (e : Z) : jsstring * Z :=
  let p := num_of m e in
  let q := den_of e in
  let n := decimal_exponent p q in
  let '(s, k) := shortest 20 (S754_finite false m e) p q n 1 in
  if (s =? 10 ^ Z.to_N k)%N
  then (decimal (10 ^ Z.to_N (k - 1)), (n + 1)%Z)
  else (decimal s, n).

Definition exponent_part (n : Z) : jsstring :=
  js "e" ++ (if (0 <=? n - 1)%Z then js "+" else js "-")
         ++ decimal (Z.abs_N (n - 1)).

Definition layout (ds : jsstring) (n : Z) : jsstring :=
  let k := Z.of_nat (List.length ds) in
  if ((k <=? n) && (n <=? 21))%Z then ds ++ zeros (Z.to_nat (n - k))
  else if ((0 <? n) && (n <=? 21))%Z then
    firstn (Z.to_nat n) ds ++ dot_cu :: skipn (Z.to_nat n) ds
  else if ((-6 <? n) && (n <=? 0))%Z then
    zero_cu :: dot_cu :: zeros (Z.to_nat (- n)) ++ ds
  else match ds with
       | [d] => d :: exponent_part n
       | d :: rest => d :: dot_cu :: rest ++ exponent_part n
       | [] => exponent_part n
       end.

Definition Number_toString (x : number) : jsstring :=
  match x with
  | S754_nan => js "NaN"
  | S754_zero _ => js "0"
  | S754_infinity s => if s then js "-Infinity" else js "Infinity"
  | S754_finite s m e =>
    (if s then js "-" else []) ++
    let '(ds, n) := digits_of m e in layout ds n
  end.

(** *** [Number.prototype.toFixed] *)

(** [m * 2^e >= 10^21] *)
Definition at_least_1e21 (m : positive) (e : Z) : bool :=
  (Zpos (den_of e) * 10 ^ 21 <=? Zpos (num_of m e))%Z.

(** The integer [n] for which [n / 10^f - m * 2^e] is as close to zero as
    possible, the larger one of two: [floor (m * 2^e * 10^f + 1/2)]. *)
Definition round_scaled (m : positive) (e : Z) (f : nat) : N :=
  let num := (Zpos (num_of m e) * 10 ^ Z.of_nat f)%Z in
  let den := Zpos (den_of e) in
  Z.to_N ((2 * num + den) / (2 * den)).

(** Steps 9.b to 9.d: pad [n]'s digits to [f + 1] and put the point before
    the last [f]. *)
Definition fixed_layout (n : N) (f : nat) : jsstring :=
  let m := decimal n in
  match f with
  | O => m
  | S _ =>
    let k := List.length m in
    let m := if (k <=? f)%nat then zeros (f + 1 - k) ++ m else m in
    let k := List.length m in
    firstn (k - f) m ++ dot_cu :: skipn (k - f) m
  end.

(** [x.toFixed(f)] for [0 <= f <= 100] (the source passes 6 and 0). *)
Definition toFixed (x : number) (f : nat) : jsstring :=
  match x with
  | S754_nan | S754_infinity _ => Number_toString x
  | S754_zero _ => fixed_layout 0 f
  | S754_finite s m e =>
    (if s then js "-" else []) ++
    (if at_least_1e21 m e then Number_toString (S754_finite false m e)
     else fixed_layout (round_scaled m e f) f)
  end.

(** *** [parseFloat] on a string without leading white space *)

Definition is_digit (c : code_unit) : bool :=
  (zero_cu <=? c)%N && (c <=? zero_cu + 9)%N.

Fixpoint span_digits (s : jsstring) : jsstring * jsstring :=
  match s with
  | c :: r =>
    if is_digit c then let '(ds, rest) := span_digits r in (c :: ds, rest)
    else ([], s)
  | [] => ([], [])
  end.

Definition digits_value (ds : jsstring) : N :=
  fold_left (fun acc c => (10 * acc + (c - zero_cu))%N) ds 0%N.

Definition take_sign (s : jsstring) : bool * jsstring :=
  match s with
  | c :: r =>
    if cu_eqb c minus_cu then (true, r)
    else if cu_eqb c plus_cu then (false, r)
    else (false, s)
  | [] => (false, [])
  end.

(** The exponent part [e[+-]?digits] when it is complete, else 0. *)
Definition take_exponent (s : jsstring) : Z :=
  match s with
  | c :: r =>
    if cu_eqb c 101%N || cu_eqb c 69%N then
      let '(neg, r') := take_sign r in
      let '(ds, _) := span_digits r' in
      match ds with
      | [] => 0%Z
      | _ => let v := Z.of_N (digits_value ds) in if neg then (- v)%Z else v
      end
    else 0%Z
  | [] => 0%Z
  end.

Definition parseFloat (s : jsstring) : number :=
  let '(neg, r) := take_sign s in
  if startsWith r (js "Infinity") then S754_infinity neg
  else
    let '(ip, r1) := span_digits r in
    let '(fp, r2) :=
      match r1 with
      | c :: r' => if cu_eqb c dot_cu then span_digits r' else ([], r1)
      | [] => ([], r1)
      end in
    match ip ++ fp with
    | [] => S754_nan
    | ds =>
      of_decimal neg (digits_value ds)
                 (take_exponent r2 - Z.of_nat (List.length fp))
    end.

End JsNumber.
Import JsNumber.

(** ** Number formatting: [fmt] *)

(** [s.replace(/\.?0+$/, '')]: the leftmost position from which the rest of
    the string is an optional point followed by one or more zeros is cut
    off; without such a position the string is returned as it is. *)
Definition all_zeros (s : jsstring) : bool :=
  match s with
  | [] => false
  | _ => forallb (cu_eqb zero_cu) s
  end.

Definition tail_matches (s : jsstring) : bool :=
  match s with
  | c :: r => (cu_eqb c dot_cu && all_zeros r) || all_zeros s
  | [] => false
  end.

Fixpoint strip_zeros (s : jsstring) : jsstring :=
  if tail_matches s then []
  else match s with
       | [] => []
       | c :: r => c :: strip_zeros r
       end.

(** The literal [1e-12] *)
Definition tiny : number := of_decimal false 1 (-12).

Definition fmt (x : number) : jsstring :=
  if lt (Math_abs x) tiny then js "0" else strip_zeros (toFixed x 6).

(** ** Objects used as maps *)

Module JsObject.

(** The own properties of an ordinary object with string keys, in the
    order of their creation; keys are pairwise different. *)
Definition obj (V : Type) := list (jsstring * V).

Section Ops.
Context {V : Type}.

Definition keys (o : obj V) : list jsstring := List.map fst o.

(** [o[k] = v]: the value of an existing property is replaced where it
    stands, a new property goes last. *)
Fixpoint define (o : obj V) (k : jsstring) (v : V) : obj V :=
  match o with
  | [] => [(k, v)]
  | (k', v') :: rest =>
    if JsString.eqb k' k then (k', v) :: rest
    else (k', v') :: define rest k v
  end.

(** The object a JSON object with these members, in this order, is
    loaded as. *)
Definition of_members (ms : list (jsstring * V)) : obj V :=
  fold_left (fun o kv => define o (fst kv) (snd kv)) ms [].

(** An array index is a canonical numeric string (["0"], or digits that
    do not start with ["0"]) whose value is below [2^32 - 1]. *)
Definition array_index (k : jsstring) : option N :=
  match k with
  | [] => None
  | c :: r =>
    if forallb is_digit k
       && (negb (cu_eqb c zero_cu) || match r with [] => true | _ => false end)
       && (digits_value k <? 4294967295)%N
    then Some (digits_value k)
    else None
  end.

Definition is_index (k : jsstring) : bool :=
  match array_index k with Some _ => true | None => false end.

Fixpoint insert_by_index (i : N) (e : jsstring * V)
         (sorted : list (N * (jsstring * V))) : list (N * (jsstring * V)) :=
  match sorted with
  | [] => [(i, e)]
  | (j, e') :: rest =>
    if (i <=? j)%N then (i, e) :: sorted
    else (j, e') :: insert_by_index i e rest
  end.

(** The properties with an array-index key, in ascending numeric order. *)
Fixpoint index_entries (o : obj V) : list (N * (jsstring * V)) :=
  match o with
  | [] => []
  | (k, v) :: rest =>
    match array_index k with
    | Some i => insert_by_index i (k, v) (index_entries rest)
    | None => index_entries rest
    end
  end.

(** [Object.entries(o)]: array-index keys first, in ascending order, then
    the other keys in the order of their creation. *)
Definition entries (o : obj V) : list (jsstring * V) :=
  List.map snd (index_entries o)
  ++ List.filter (fun kv => negb (is_index (fst kv))) o.

End Ops.

End JsObject.
Import JsObject.

(** ** The data model *)

Record Model := {
  degree : number;
  coef : list number;
  var : number;
  sd : number;
  code : jsstring;
  comment : option jsstring
}.

Record OperationInfo := {
  models : list Model;
  image : jsstring
}.

Definition ReportData := obj OperationInfo.

(** ** React elements *)

Definition EPS_RATIO : number := of_decimal false 2 (-2).

Definition CLS_body : jsstring := js "rep-body".
Definition CLS_h1 : jsstring := js "rep-title".
Definition CLS_section : jsstring := js "rep-section".
Definition CLS_table : jsstring := js "rep-table".
Definition CLS_caption : jsstring := js "rep-caption".
Definition CLS_thead : jsstring := js "rep-thead".
Definition CLS_tbodyEven : jsstring := js "rep-row-even".
Definition CLS_img : jsstring := js "rep-img".

Inductive key_value :=
| KeyStr (s : jsstring)
| KeyIdx (i : nat).

Inductive attr :=
| AStr (s : jsstring)
| AStyle (decls : list (string * jsstring))
| AHandler (name : string)
| ARef (name : string).

Record props := {
  className : option jsstring;
  key : option key_value;
  attrs : list (string * attr)
}.

Definition no_props : props :=
  {| className := None; key := None; attrs := [] |}.
Definition with_class (c : jsstring) : props :=
  {| className := Some c; key := None; attrs := [] |}.
Definition with_attrs (a : list (string * attr)) : props :=
  {| className := None; key := None; attrs := a |}.

(** What a component returns: host elements, fragments, arrays of children
    and the strings and numbers put between them. *)
Inductive node :=
| Element (tag : string) (p : props) (children : list node)
| Fragment (k : option key_value) (children : list node)
| Many (items : list node)
| Text (s : jsstring)
| Num (x : number).

Definition nbsp : jsstring := [160%N].

Definition Intro : node :=
  Fragment None [
    Element "section" (with_class CLS_section) [
      Element "h2" no_props [Text (js "Как работает полиномиальная регрессия")];
      Element "p" no_props [
        Text (js "Время ");
        Element "em" no_props [Text (js "y")];
        Text (js " аппроксимируется полиномом степени" ++ nbsp);
        Element "em" no_props [Text (js "k")];
        Text (js " от" ++ nbsp ++ js "размера данных ");
        Element "em" no_props [Text (js "n")];
        Text (js ":") ];
      Element "p" no_props [
        Element "code" no_props [
          Text (js "y = a");
          Element "sub" no_props [Text (js "0")];
          Text (js " + a");
          Element "sub" no_props [Text (js "1")];
          Text (js "n + … + a");
          Element "sub" no_props [Text (js "k")];
          Text (js "n");
          Element "sup" no_props [Text (js "k")] ];
        Text (js ".") ];
      Element "p" no_props [
        Text (js "Коэффициенты ");
        Element "code" no_props [Text (js "a_i")];
        Text (js " находятся методом");
        Text (js " ");
        Element "abbr" (with_attrs [("title"%string, AStr (js "Ordinary Least Squares – метод наименьших квадратов"))]) [Text (js "OLS")];
        Text (js ", минимизирующим сумму квадратов ");
        Element "em" no_props [Text (js "остатков")];
        Text (nbsp);
        Element "code" no_props [Text (js "resid")];
        Text (js ". F‑тест проверяет, улучшает" ++ nbsp ++ js "ли добавление нового члена точность модели.") ];
      Element "p" no_props [
        Text (js "Если относительный вес старшего коэффициента |a");
        Element "sub" no_props [Text (js "k")];
        Text (js "|" ++ nbsp ++ js "/" ++ nbsp ++ js "max");
        Element "sub" no_props [Text (js "i<k")];
        Text (js "|a");
        Element "sub" no_props [Text (js "i")];
        Text (js "|" ++ nbsp ++ js "<" ++ nbsp);
        Text (toFixed (mul EPS_RATIO (of_decimal false 100 0)) 0);
        Text (nbsp ++ js "%, член считается ");
        Element "em" no_props [Text (js "фиктивным")];
        Text (js " и отмечается в" ++ nbsp ++ js "таблицах.") ] ];
    Element "section" (with_class CLS_section) [
      Element "h2" no_props [Text (js "Справочник терминов")];
      Element "ul" no_props [
        Element "li" no_props [
          Element "b" no_props [Text (js "Residual (resid)")];
          Text (nbsp ++ js "— разница между фактом и" ++ nbsp ++ js "прогнозом.") ];
        Element "li" no_props [
          Element "b" no_props [Text (js "RSS")];
          Text (nbsp ++ js "— сумма квадратов resid.") ];
        Element "li" no_props [
          Element "b" no_props [Text (js "σ²")];
          Text (nbsp ++ js "(D[X])" ++ nbsp ++ js "— оценка дисперсии: RSS" ++ nbsp ++ js "/" ++ nbsp ++ js "(N" ++ nbsp ++ js "−" ++ nbsp ++ js "k" ++ nbsp ++ js "−" ++ nbsp ++ js "1).") ];
        Element "li" no_props [
          Element "b" no_props [Text (js "СКО")];
          Text (nbsp ++ js "— стандартное отклонение = √σ².") ];
        Element "li" no_props [
          Element "b" no_props [Text (js "F‑тест")];
          Text (nbsp ++ js "— проверка статистической значимости нового члена.") ] ] ] ].

(** [xs.map((x, i) => f(x, i))] *)
Fixpoint map_from {A B : Type} (f : A -> nat -> B) (i : nat) (xs : list A)
  : list B :=
  match xs with
  | [] => []
  | x :: rest => f x i :: map_from f (S i) rest
  end.

Definition mapi {A B : Type} (f : A -> nat -> B) (xs : list A) : list B :=
  map_from f 0 xs.

(** [a || b] on an optional string: [undefined] and the empty string are
    falsy. *)
Definition or_else (a : option jsstring) (b : jsstring) : jsstring :=
  match a with
  | Some (c :: r) => c :: r
  | _ => b
  end.

Definition table_head : node :=
  Element "thead" (with_class CLS_thead) [
    Element "tr" no_props [
      Element "th" no_props [Text (js "deg")];
      Element "th" no_props [Text (js "a0")];
      Element "th" no_props [Text (js "a1")];
      Element "th" no_props [Text (js "a2")];
      Element "th" no_props [Text (js "a3")];
      Element "th" no_props [Text (js "a4")];
      Element "th" no_props [Text (js "D[X]")];
      Element "th" no_props [Text (js "СКО")];
      Element "th" no_props [Text (js "Код")];
      Element "th" no_props [Text (js "Пояснение")];
      Element "th" no_props [Text (js "Комментарий")] ] ].

(** The cell of the coefficient [c] at index [i] *)
Definition coef_cell (c : number) (i : nat) : node :=
  Element "td" {| className := None; key := Some (KeyIdx i); attrs := [] |}
          [Text (fmt c)].

Definition model_row (m : Model) (idx : nat) : node :=
  Element "tr"
    {| className := if Nat.eqb (idx mod 2) 0 then None else Some CLS_tbodyEven;
       key := Some (KeyIdx idx); attrs := [] |}
    [ Element "td" no_props [Num (degree m)];
      Many (mapi coef_cell (coef m));
      Element "td" no_props [Text (fmt (var m))];
      Element "td" no_props [Text (fmt (sd m))];
      Element "td" no_props [Text (code m)];
      Element "td" no_props [Text (explain (code m))];
      Element "td" no_props [Text (or_else (comment m) nbsp)] ].

Section Report.

(** [new URL(rel, import.meta.url).href]: how the bundler resolves an asset
    path against the module's own address. *)
Variable asset_href : jsstring -> jsstring.

Definition operation_caption (op : jsstring) : node :=
  Element "div" (with_class CLS_caption) [Text (js "Операция: "); Text op].

Definition operation_table (models : list Model) : node :=
  Element "table" (with_class CLS_table) [
    table_head;
    Element "tbody" no_props [Many (mapi model_row models)] ].

Definition operation_image (op image : jsstring) : node :=
  Element "img"
    {| className := Some CLS_img; key := None;
       attrs := [("src"%string,
                  AStr (asset_href (js "./assets/" ++ image)));
                 ("alt"%string, AStr (js "график " ++ op))] |}
    [].

(** The body of the callback given to [Object.entries(reportData).map]. *)
Definition operation_section (entry : jsstring * OperationInfo) : node :=
  let '(op, info) := entry in
  Fragment (Some (KeyStr op)) [
    operation_caption op;
    operation_table (models info);
    Element "p"
      (with_attrs [("style"%string,
                    AStyle [("width"%string, js "70%");
                            ("margin"%string, js "0 auto")])])
      [operation_image op (image info)] ].

Definition RegressionReport (reportData : ReportData) : node :=
  Fragment None [
    Element "button"
      (with_attrs [("onClick"%string, AHandler "downloadPdf")])
      [Text (js "Download PDF")];
    Element "div"
      {| className := Some CLS_body; key := None;
         attrs := [("ref"%string, ARef "reportRef")] |}
      [ Element "h1" (with_class CLS_h1) [Text (js "Отчёт регрессионного анализа")];
        Intro;
        Many (List.map operation_section (entries reportData)) ] ].

End Report.

(** *** Reading a rendered tree *)

Definition tag_is (t : string) (n : node) : bool :=
  match n with
  | Element t' _ _ => String.eqb t' t
  | _ => false
  end.

(** All elements with tag [t], in document order. *)
Fixpoint elements_by_tag (t : string) (n : node) : list node :=
  let fix all (ns : list node) : list node :=
    match ns with
    | [] => []
    | c :: rest => elements_by_tag t c ++ all rest
    end in
  match n with
  | Element t' p cs =>
    (if String.eqb t' t then [n] else []) ++ all cs
  | Fragment _ cs => all cs
  | Many cs => all cs
  | Text _ | Num _ => []
  end.

Definition class_of (n : node) : option jsstring :=
  match n with
  | Element _ p _ => className p
  | _ => None
  end.

(** The body rows of a table: the [tr] elements below its [tbody]. *)
Definition body_rows (table : node) : list node :=
  flat_map (elements_by_tag "tr") (elements_by_tag "tbody" table).

(** A row as the number of its cells and its class. *)
Definition row_shape (row : node) : nat * option jsstring :=
  (List.length (elements_by_tag "td" row), class_of row).

(** Every table of a tree as the shapes of its body rows. *)
Definition table_shapes (n : node) : list (list (nat * option jsstring)) :=
  List.map (fun t => List.map row_shape (body_rows t))
           (elements_by_tag "table" n).

(** The text directly inside an element. *)
Definition own_text (n : node) : jsstring :=
  match n with
  | Element _ _ cs =>
    flat_map (fun c => match c with Text s => s | _ => [] end) cs
  | _ => []
  end.

Definition attr_of (name : string) (n : node) : option attr :=
  match n with
  | Element _ p _ =>
    match List.find (fun a => String.eqb (fst a) name) (attrs p) with
    | Some a => Some (snd a)
    | None => None
    end
  | _ => None
  end.

Definition has_class (c : jsstring) (n : node) : bool :=
  match class_of n with
  | Some c' => JsString.eqb c' c
  | None => false
  end.

(** The captions of a tree, in document order. *)
Definition captions (n : node) : list jsstring :=
  List.map own_text
           (List.filter (has_class CLS_caption) (elements_by_tag "div" n)).

(** The [src] of every image of a tree, in document order. *)
Definition image_sources (n : node) : list (option attr) :=
  List.map (attr_of "src") (elements_by_tag "img" n).

(** ** The export action: [downloadPdf] *)

Module Pdf.

(** The report container, as far as the export reads it. *)
Record HTMLDivElement := { scrollWidth : number }.

Record ImageOptions := { type : jsstring; quality : number }.
Record CanvasOptions := { scale : number; width : number }.
Record JsPdfOptions := {
  unit : jsstring; format : jsstring; orientation : jsstring }.
Record PagebreakOptions := { mode : list jsstring; avoid : list jsstring }.

Record Options := {
  margin : list number;
  filename : jsstring;
  image : ImageOptions;
  html2canvas : CanvasOptions;
  jsPDF : JsPdfOptions;
  pagebreak : PagebreakOptions
}.

Inductive thrown :=
| TypeError
| Reason (r : jsstring).

Inductive settled (A : Type) :=
| Fulfilled (a : A)
| Rejected (e : thrown).
Arguments Fulfilled {A} a.
Arguments Rejected {A} e.

(** The conversion library: what [default().set(opt).from(el).save()]
    settles to. *)
Record Html2Pdf := {
  save : Options -> HTMLDivElement -> settled Datatypes.unit
}.

Inductive call :=
| Import (specifier : jsstring)
| Save (opt : Options) (el : HTMLDivElement).

(** What one click leaves behind: the promise the handler returns, the
    calls made to the outside, and the rejections nobody handles. *)
Record outcome := {
  returned : settled Datatypes.unit;
  trace : list call;
  unhandled : list thrown
}.

Definition ten : number := of_decimal false 10 0.

Definition opt (el : HTMLDivElement) : Options := {|
  margin := [ten; ten; ten; ten];
  filename := js "regression.pdf";
  image := {| type := js "jpeg"; quality := of_decimal false 98 (-2) |};
  html2canvas := {| scale := of_decimal false 1 0; width := scrollWidth el |};
  jsPDF := {| unit := js "mm"; format := js "a4";
              orientation := js "portrait" |};
  pagebreak := {| mode := [js "avoid-all"; js "css"];
                  avoid := [js ".rep-table"; js ".rep-img"] |}
|}.

Section Click.

(** What the dynamic [import(specifier)] settles to. *)
Variable import_ : jsstring -> settled Html2Pdf.

(** [current] is [reportRef.current]: reading [scrollWidth] of [null]
    throws inside the async function, before anything is imported. *)
Definition downloadPdf (current : option HTMLDivElement) : outcome :=
  match current with
  | None =>
    {| returned := Rejected TypeError; trace := [];
       unhandled := [TypeError] |}
  | Some el =>
    let o := opt el in
    match import_ (js "html2pdf.js") with
    | Rejected e =>
      {| returned := Fulfilled tt;
         trace := [Import (js "html2pdf.js")];
         unhandled := [e] |}
    | Fulfilled pdf =>
      {| returned := Fulfilled tt;
         trace := [Import (js "html2pdf.js"); Save o el];
         unhandled := match save pdf o el with
                      | Fulfilled _ => []
                      | Rejected e => [e]
                      end |}
    end
  end.

End Click.

End Pdf.


(** *** Reading a formatted number *)

(** Is [c] the last code unit of [s]? *)
Definition ends_with_cu (c : code_unit) (s : jsstring) : bool :=
  match rev s with
  | x :: _ => cu_eqb x c
  | [] => false
  end.

Definition has_dot (s : jsstring) : bool := existsb (cu_eqb dot_cu) s.

(** The number of decimal points of [s]. *)
Definition dots (s : jsstring) : nat := count_occ N.eq_dec s dot_cu.

(** The numbers of the examples. *)
Definition num_0_1 : number := of_decimal false 1 (-1).
Definition num_1_5 : number := of_decimal false 15 (-1).
Definition num_neg_2 : number := of_decimal true 2 0.
Definition num_10 : number := of_decimal false 10 0.
Definition num_1e_13 : number := of_decimal false 1 (-13).
Definition num_1e_8 : number := of_decimal false 1 (-8).
Definition num_neg_1e_8 : number := of_decimal true 1 (-8).
Definition num_1e30 : number := of_decimal false 1 30.
Definition num_1e_6 : number := of_decimal false 1 (-6).

(** At most one decimal point, and not at the end. *)
Definition well_pointed (s : jsstring) : Prop :=
  (dots s <= 1)%nat /\ ends_with_cu dot_cu s = false.


(** *** What the report is expected to show *)

(** Are the keys pairwise different? *)
Fixpoint distinct (ks : list jsstring) : bool :=
  match ks with
  | [] => true
  | k :: rest => negb (existsb (JsString.eqb k) rest) && distinct rest
  end.

(** The shape of the body rows of the table of one operation: the cells of a
    row are the coefficients of its model and [fixed] more. *)
Definition rows_shape (fixed : nat) (info : OperationInfo)
  : list (nat * option jsstring) :=
  mapi (fun m idx =>
          ((List.length (coef m) + fixed)%nat,
           if Nat.odd idx then Some CLS_tbodyEven else None))
       (models info).

Definition caption_text (op : jsstring) : jsstring := js "Операция: " ++ op.

(** Sample data: one model of degree 1 with two coefficients. *)
Definition sample_model : Model := {|
  degree := of_decimal false 1 0;
  coef := [num_1_5; num_neg_2];
  var := num_0_1;
  sd := num_1e_13;
  code := js "+-";
  comment := None
|}.

Definition sample_info (n : nat) (img : jsstring) : OperationInfo :=
  {| models := repeat sample_model n; image := img |}.

Definition sample_members : list (jsstring * OperationInfo) :=
  [ (js "insert", sample_info 3 (js "insert.png"));
    (js "delete", sample_info 1 (js "delete.png")) ].

(** A JSON object whose second key is an array index. *)
Definition numbered_members : list (jsstring * OperationInfo) :=
  [ (js "b", sample_info 1 (js "b.png"));
    (js "1", sample_info 2 (js "one.png")) ].


(** The exact reading of a decimal string [[+-]?digits(.digits)?], with the
    lexing of [parseFloat]: the sign, the integer written by all its digits,
    the number of digits after the point, and what is left unread.  The
    string denotes [(-1)^neg * d / 10^k]. *)
Definition read_decimal (s : jsstring) : bool * N * nat * jsstring :=
  let '(neg, r) := take_sign s in
  let '(ip, r1) := span_digits r in
  let '(fp, r2) :=
    match r1 with
    | c :: r' => if cu_eqb c dot_cu then span_digits r' else ([], r1)
    | [] => ([], r1)
    end in
  (neg, digits_value (ip ++ fp), List.length fp, r2).


(** All fragments of a tree, in document order. *)
Fixpoint fragments (n : node) : list node :=
  let fix all (ns : list node) : list node :=
    match ns with
    | [] => []
    | c :: rest => fragments c ++ all rest
    end in
  match n with
  | Element _ _ cs => all cs
  | Fragment _ cs => n :: all cs
  | Many cs => all cs
  | Text _ | Num _ => []
  end.

(** The [key] given to an element or a fragment. *)
Definition key_of (n : node) : option key_value :=
  match n with
  | Element _ p _ => key p
  | Fragment k _ => k
  | _ => None
  end.

(** * Theorems *)

(** ** Properties of [explain] *)

Section Explain.

Lemma is_sign_cases c : is_sign c = true -> c = plus_cu \/ c = minus_cu.
Proof.
  unfold is_sign, cu_eqb. intros H.
  apply orb_true_iff in H as [H | H]; apply N.eqb_eq in H; auto.
Qed.

Lemma code_ok_cases code :
  code_ok code = true ->
  exists a b, (a = plus_cu \/ a = minus_cu) /\ (b = plus_cu \/ b = minus_cu)
              /\ (code = [a; b] \/ code = [star_cu; a; b]).
Proof.
  destruct code as [| x [| y [| z [| w r]]]]; simpl; try discriminate.
  - intros H. apply andb_true_iff in H as [Ha Hb].
    exists x, y. auto using is_sign_cases.
  - intros H. apply andb_true_iff in H as [H Hb].
    apply andb_true_iff in H as [Hs Ha]. apply N.eqb_eq in Hs. subst x.
    exists y, z. auto using is_sign_cases.
Qed.

Lemma strict_eq_index s i :
  strict_eq (index s i) (js "+")
  = match nth_error s i with Some c => cu_eqb c plus_cu | None => false end.
Proof.
  unfold index. destruct (nth_error s i) as [c |]; [| reflexivity].
  simpl. apply andb_true_r.
Qed.

Lemma startsWith_star s :
  startsWith s (js "*")
  = match s with c :: _ => cu_eqb c star_cu | [] => false end.
Proof. destruct s as [| c r]; [reflexivity |]. simpl. apply andb_true_r. Qed.

Lemma sign_at_plus s i :
  cu_eqb (sign_at s i) plus_cu
  = match nth_error s i with Some c => cu_eqb c plus_cu | None => false end.
Proof.
  unfold sign_at. destruct (nth_error s i) as [c |]; [| reflexivity].
  destruct (cu_eqb c plus_cu); reflexivity.
Qed.

Lemma sign_at_is_sign s i : is_sign (sign_at s i) = true.
Proof.
  unfold sign_at. destruct (nth_error s i) as [c |]; [| reflexivity].
  destruct (cu_eqb c plus_cu); reflexivity.
Qed.

Lemma sign_at_not_star s i : cu_eqb (sign_at s i) star_cu = false.
Proof.
  unfold sign_at. destruct (nth_error s i) as [c |]; [| reflexivity].
  destruct (cu_eqb c plus_cu); reflexivity.
Qed.

Lemma sign_at_cases s i : sign_at s i = plus_cu \/ sign_at s i = minus_cu.
Proof.
  unfold sign_at. destruct (nth_error s i) as [c |]; [| now right].
  destruct (cu_eqb c plus_cu); auto.
Qed.

(** Reading a position of an already normalized pair changes nothing. *)
Lemma sign_at_pair a b :
  (a = plus_cu \/ a = minus_cu) -> (b = plus_cu \/ b = minus_cu) ->
  sign_at [a; b] 0 = a /\ sign_at [a; b] 1 = b.
Proof. intros [-> | ->] [-> | ->]; split; reflexivity. Qed.

Lemma normalize_star code :
  startsWith (normalize code) (js "*") = startsWith code (js "*").
Proof.
  unfold normalize. destruct (startsWith code (js "*")) eqn:E.
  - reflexivity.
  - rewrite startsWith_star. apply sign_at_not_star.
Qed.

Lemma normalize_rest code :
  rest_of (normalize code) = [sign_at (rest_of code) 0; sign_at (rest_of code) 1].
Proof.
  unfold rest_of. rewrite normalize_star. unfold normalize.
  destruct (startsWith code (js "*")); reflexivity.
Qed.

(** [explain] only looks at whether the code starts with ['*'] and whether
    the next two positions hold ['+']. *)
Lemma explain_parts_eq code :
  explain_parts code
  = (if startsWith code (js "*") then [phrase_neg] else [])
      ++ [phrase05 (sign_at (rest_of code) 0);
          phrase01 (sign_at (rest_of code) 1)].
Proof.
  unfold explain_parts, rest_of, push, phrase05, phrase01.
  destruct (startsWith code (js "*")); cbv zeta;
    rewrite !strict_eq_index, !sign_at_plus; reflexivity.
Qed.

End Explain.

(** C1 (as stated): the three example codes do not decode to the English
    sentences; the phrases in the source are Russian. *)
Lemma explain_examples_not_english :
  ~ (explain (js "++") = js "significant at α=0.05, significant at α=0.01"
     /\ explain (js "+-") = js "significant at α=0.05, not better at α=0.01"
     /\ explain (js "*-+")
        = js "leading coefficient is negative, not better at α=0.05, significant at α=0.01").
Proof. intros [H _]. vm_compute in H. discriminate H. Qed.

(** C1 (amended): [explain] returns, for the three example codes, the
    sentences built from the phrases of the source: ["++"] gives
    "значимо лучше при α=0.05, значимо лучше при α=0.01", ["+-"] gives
    "значимо лучше при α=0.05, не лучше при α=0.01" and ["*-+"] gives
    "старший коэффициент < 0, не лучше при α=0.05, значимо лучше при α=0.01". *)
Theorem explain_examples :
  explain (js "++") = js "значимо лучше при α=0.05, значимо лучше при α=0.01"
  /\ explain (js "+-") = js "значимо лучше при α=0.05, не лучше при α=0.01"
  /\ explain (js "*-+")
     = js "старший коэффициент < 0, не лучше при α=0.05, значимо лучше при α=0.01".
Proof. split; [| split]; vm_compute; reflexivity. Qed.

(** C5: for every code matching [[*]?[+-][+-]], [explain] emits the
    negative-leading-coefficient phrase first exactly when the code starts
    with ['*'], then the phrase for α=0.05 chosen by the first remaining
    character and the phrase for α=0.01 chosen by the second, joined with
    [", "]; splitting the result at [", "] gives these phrases back, three of
    them when the code starts with ['*'] and two otherwise. *)
Theorem explain_well_formed (code : jsstring) :
  code_ok code = true ->
  explain code = join (js ", ") (spec_parts code)
  /\ split2 comma_cu space_cu (explain code) = spec_parts code
  /\ List.length (spec_parts code)
     = (if startsWith code (js "*") then 3 else 2)%nat.
Proof.
  intros H. destruct (code_ok_cases code H) as (a & b & Ha & Hb & Hc).
  destruct Ha, Hb, Hc; subst; (split; [| split]); vm_compute; reflexivity.
Qed.

Lemma explain_well_formed_witness :
  code_ok (js "*-+") = true
  /\ explain (js "*-+") = join (js ", ") (spec_parts (js "*-+"))
  /\ split2 comma_cu space_cu (explain (js "*-+")) = spec_parts (js "*-+")
  /\ List.length (spec_parts (js "*-+")) = 3%nat.
Proof.
  split; [reflexivity |].
  apply (explain_well_formed (js "*-+")). reflexivity.
Defined.

(** C9: [explain] is defined on every string: it returns the sentence of the
    well-formed code obtained by reading each significance position as ['+']
    when it holds ['+'] and as ['-'] when it holds anything else or nothing;
    so the empty string and a lone ["*"] give the two "not better" phrases. *)
Theorem explain_total (code : jsstring) :
  code_ok (normalize code) = true
  /\ explain code = explain (normalize code)
  /\ explain (js "") = join (js ", ") [phrase_not05; phrase_not01]
  /\ explain (js "*") = join (js ", ") [phrase_neg; phrase_not05; phrase_not01]
  /\ explain (js "+") = join (js ", ") [phrase_sig05; phrase_not01]
  /\ explain (js "x+?") = join (js ", ") [phrase_not05; phrase_sig01].
Proof.
  split; [| split; [| split; [| split; [| split]]; vm_compute; reflexivity]].
  - unfold normalize. destruct (startsWith code (js "*")); simpl;
      rewrite !sign_at_is_sign; reflexivity.
  - unfold explain. f_equal.
    rewrite (explain_parts_eq code), (explain_parts_eq (normalize code)).
    rewrite normalize_star, normalize_rest.
    destruct (sign_at_pair _ _ (sign_at_cases (rest_of code) 0)
                               (sign_at_cases (rest_of code) 1)) as [-> ->].
    reflexivity.
Qed.

(** ** Properties of [fmt] *)

Section Strings.

Lemma cu_eqb_eq a b : cu_eqb a b = true <-> a = b.
Proof. apply N.eqb_eq. Qed.

Lemma cu_eqb_neq a b : cu_eqb a b = false <-> a <> b.
Proof. apply N.eqb_neq. Qed.

Lemma ends_with_cons c x s :
  s <> [] -> ends_with_cu c (x :: s) = ends_with_cu c s.
Proof.
  intros Hs. unfold ends_with_cu. simpl.
  destruct (rev s) as [| y t] eqn:E.
  - apply (f_equal (@rev _)) in E. rewrite rev_involutive in E. contradiction.
  - reflexivity.
Qed.

Lemma ends_with_app c s t :
  t <> [] -> ends_with_cu c (s ++ t) = ends_with_cu c t.
Proof.
  intros Ht. induction s as [| x s IH]; [reflexivity |].
  simpl. rewrite ends_with_cons; [exact IH |].
  destruct s; simpl; [exact Ht | discriminate].
Qed.

Lemma dots_app s t : dots (s ++ t) = (dots s + dots t)%nat.
Proof. apply count_occ_app. Qed.

Lemma dots_cons_dot s : dots (dot_cu :: s) = S (dots s).
Proof. unfold dots. simpl. reflexivity. Qed.

Lemma dots_cons_other c s : c <> dot_cu -> dots (c :: s) = dots s.
Proof. intros H. unfold dots. apply count_occ_cons_neq. exact H. Qed.

Lemma has_dot_dots s : has_dot s = false <-> dots s = 0%nat.
Proof.
  unfold has_dot, dots.
  induction s as [| c s IH]; cbn [existsb count_occ]; [tauto |].
  destruct (N.eq_dec c dot_cu) as [-> | Hc].
  - simpl. split; discriminate.
  - assert (H' : cu_eqb dot_cu c = false) by (apply cu_eqb_neq; congruence).
    rewrite H'. simpl. exact IH.
Qed.

(** A string without a point does not end with one. *)
Lemma no_dot_no_trailing_dot s : dots s = 0%nat -> ends_with_cu dot_cu s = false.
Proof.
  unfold dots, ends_with_cu. intros H.
  destruct (rev s) as [| x t] eqn:E; [reflexivity |].
  apply cu_eqb_neq. intros ->.
  assert (Hin : In dot_cu s) by (apply in_rev; rewrite E; left; reflexivity).
  apply (count_occ_In N.eq_dec) in Hin. lia.
Qed.

Lemma all_zeros_no_dot s : all_zeros s = true -> dots s = 0%nat.
Proof.
  destruct s as [| c s]; [discriminate |]. unfold all_zeros.
  generalize (c :: s). clear. intros s H.
  induction s as [| x s IH]; [reflexivity |].
  cbn [forallb] in H. apply andb_true_iff in H as [Hx Hs].
  apply cu_eqb_eq in Hx. subst x. rewrite dots_cons_other by discriminate.
  auto.
Qed.

Lemma all_zeros_cons c s :
  all_zeros (c :: s) = cu_eqb zero_cu c && (match s with [] => true | _ => all_zeros s end).
Proof. destruct s; reflexivity. Qed.

Lemma strip_zeros_nil s :
  strip_zeros s = [] -> s = [] \/ tail_matches s = true.
Proof.
  destruct s as [| c r]; [auto |].
  cbn [strip_zeros]. destruct (tail_matches (c :: r)); [auto | discriminate].
Qed.

Lemma strip_zeros_cons c r :
  tail_matches (c :: r) = false -> strip_zeros (c :: r) = c :: strip_zeros r.
Proof. intros H. cbn [strip_zeros]. rewrite H. reflexivity. Qed.

Lemma strip_zeros_match s : tail_matches s = true -> strip_zeros s = [].
Proof. intros H. destruct s; cbn [strip_zeros]; rewrite ?H; reflexivity. Qed.

Lemma tail_matches_dots r :
  tail_matches r = true -> dots r = 0%nat -> all_zeros r = true.
Proof.
  destruct r as [| c r]; [discriminate |].
  unfold tail_matches. intros H Hd.
  apply orb_true_iff in H as [H | H]; [| exact H].
  apply andb_true_iff in H as [Hc _]. apply cu_eqb_eq in Hc. subst c.
  rewrite dots_cons_dot in Hd. discriminate.
Qed.

(** Without a point in the string, what is cut off starts with a zero, so
    no zero is left at the end. *)
Lemma strip_zeros_no_dot s :
  dots s = 0%nat -> ends_with_cu zero_cu (strip_zeros s) = false.
Proof.
  induction s as [| c r IH]; intros Hd; [reflexivity |].
  destruct (tail_matches (c :: r)) eqn:Hm.
  - rewrite strip_zeros_match by exact Hm. reflexivity.
  - rewrite strip_zeros_cons by exact Hm.
    assert (Hr : dots r = 0%nat).
    { destruct (N.eq_dec c dot_cu) as [-> | Hc].
      - rewrite dots_cons_dot in Hd. discriminate.
      - rewrite dots_cons_other in Hd by exact Hc. exact Hd. }
    destruct (strip_zeros r) as [| y t] eqn:Es.
    + unfold ends_with_cu. simpl. apply cu_eqb_neq. intros ->.
      unfold tail_matches in Hm. apply orb_false_iff in Hm as [_ Hm].
      rewrite all_zeros_cons in Hm. simpl in Hm.
      destruct (strip_zeros_nil r Es) as [-> | Ht]; [discriminate Hm |].
      rewrite (tail_matches_dots r Ht Hr) in Hm.
      destruct r; discriminate Hm.
    + rewrite ends_with_cons by discriminate. exact (IH Hr).
Qed.

(** The result of [replace(/\.?0+$/, '')] on a string with at most one
    point that does not end with it: no point at the end, and no zero at
    the end when a point is left. *)
Lemma strip_zeros_shape s :
  (dots s <= 1)%nat -> ends_with_cu dot_cu s = false ->
  ends_with_cu dot_cu (strip_zeros s) = false
  /\ has_dot (strip_zeros s) && ends_with_cu zero_cu (strip_zeros s) = false.
Proof.
  induction s as [| c r IH]; intros Hd He; [split; reflexivity |].
  destruct (tail_matches (c :: r)) eqn:Hm.
  { rewrite strip_zeros_match by exact Hm. split; reflexivity. }
  rewrite strip_zeros_cons by exact Hm.
  assert (Hr : (dots r <= 1)%nat).
  { destruct (N.eq_dec c dot_cu) as [-> | Hc].
    - rewrite dots_cons_dot in Hd. lia.
    - rewrite dots_cons_other in Hd by exact Hc. exact Hd. }
  assert (Her : ends_with_cu dot_cu r = false).
  { destruct r as [| y t]; [reflexivity |].
    rewrite ends_with_cons in He by discriminate. exact He. }
  destruct (IH Hr Her) as [IH1 IH2].
  destruct (strip_zeros r) as [| y t] eqn:Es.
  - (* everything after [c] is cut off *)
    assert (Hc : c <> dot_cu).
    { intros ->. destruct (strip_zeros_nil r Es) as [-> | Ht].
      - discriminate He.
      - rewrite dots_cons_dot in Hd.
        assert (Hr0 : dots r = 0%nat) by lia.
        pose proof (tail_matches_dots r Ht Hr0) as Hz.
        unfold tail_matches in Hm. rewrite Hz in Hm.
        simpl in Hm. discriminate Hm. }
    split.
    + unfold ends_with_cu. simpl. apply cu_eqb_neq. exact Hc.
    + unfold has_dot. cbn [existsb].
      assert (H' : cu_eqb dot_cu c = false) by (apply cu_eqb_neq; congruence).
      rewrite H'. reflexivity.
  - split; [rewrite ends_with_cons by discriminate; exact IH1 |].
    rewrite (ends_with_cons zero_cu c (y :: t)) by discriminate.
    destruct (N.eq_dec c dot_cu) as [-> | Hc].
    + (* the point is [c]: nothing after it holds a point *)
      rewrite dots_cons_dot in Hd. assert (Hr0 : dots r = 0%nat) by lia.
      pose proof (strip_zeros_no_dot r Hr0) as Hz. rewrite Es in Hz.
      rewrite Hz. apply andb_false_r.
    + unfold has_dot in *. cbn [existsb].
      assert (H' : cu_eqb dot_cu c = false) by (apply cu_eqb_neq; congruence).
      rewrite H'. exact IH2.
Qed.

End Strings.

Section FixedShape.

Lemma uint_chars_digits u : forallb is_digit (uint_chars u) = true.
Proof. induction u; simpl; rewrite ?IHu; reflexivity. Qed.

Lemma decimal_digits n : forallb is_digit (decimal n) = true.
Proof. apply uint_chars_digits. Qed.

Lemma is_digit_not_dot c : is_digit c = true -> c <> dot_cu.
Proof.
  unfold is_digit, zero_cu, dot_cu. intros H ->. discriminate H.
Qed.

Lemma digits_no_dot s : forallb is_digit s = true -> dots s = 0%nat.
Proof.
  induction s as [| c s IH]; [reflexivity |]. cbn [forallb]. intros H.
  apply andb_true_iff in H as [Hc Hs].
  rewrite dots_cons_other by (apply is_digit_not_dot; exact Hc). auto.
Qed.

Lemma decimal_no_dot n : dots (decimal n) = 0%nat.
Proof. apply digits_no_dot, decimal_digits. Qed.

Lemma uint_chars_nil u : uint_chars u = [] -> u = Decimal.Nil.
Proof. destruct u; simpl; intros H; [reflexivity | discriminate H ..]. Qed.

Lemma decimal_nonempty n : decimal n <> [].
Proof.
  unfold decimal. intros H. apply uint_chars_nil in H.
  destruct n as [| p]; [discriminate H |].
  exact (DecimalPos.Unsigned.to_uint_nonnil p H).
Qed.

Lemma zeros_no_dot k : dots (zeros k) = 0%nat.
Proof.
  unfold zeros. induction k as [| k IH]; [reflexivity |].
  cbn [repeat]. rewrite dots_cons_other by discriminate. exact IH.
Qed.

Lemma dots_firstn_skipn n s :
  dots s = 0%nat -> dots (firstn n s) = 0%nat /\ dots (skipn n s) = 0%nat.
Proof.
  intros H. rewrite <- (firstn_skipn n s), dots_app in H. lia.
Qed.

Lemma well_pointed_no_dot s : dots s = 0%nat -> well_pointed s.
Proof.
  intros H. split; [lia | apply no_dot_no_trailing_dot; exact H].
Qed.

(** One point between two runs without a point, the second not empty. *)
Lemma well_pointed_inside a b :
  dots a = 0%nat -> dots b = 0%nat -> b <> [] ->
  well_pointed (a ++ dot_cu :: b).
Proof.
  intros Ha Hb Hne. split.
  - rewrite dots_app, dots_cons_dot. lia.
  - rewrite ends_with_app by discriminate.
    rewrite ends_with_cons by exact Hne.
    apply no_dot_no_trailing_dot. exact Hb.
Qed.

Lemma well_pointed_cons c s :
  c <> dot_cu -> well_pointed s -> well_pointed (c :: s).
Proof.
  intros Hc [Hd He]. split.
  - rewrite dots_cons_other by exact Hc. exact Hd.
  - destruct s as [| y t].
    + unfold ends_with_cu. simpl. apply cu_eqb_neq. exact Hc.
    + rewrite ends_with_cons by discriminate. exact He.
Qed.

Lemma well_pointed_sign (s : bool) r :
  well_pointed r -> well_pointed ((if s then js "-" else []) ++ r).
Proof.
  intros H. destruct s; [| exact H].
  apply (well_pointed_cons minus_cu r); [discriminate | exact H].
Qed.

Lemma fixed_layout_shape n f : well_pointed (fixed_layout n f).
Proof.
  unfold fixed_layout. destruct f as [| f'].
  - apply well_pointed_no_dot, decimal_no_dot.
  - set (f := S f').
    set (m := if (List.length (decimal n) <=? f)%nat
              then zeros (f + 1 - List.length (decimal n)) ++ decimal n
              else decimal n).
    assert (Hm : dots m = 0%nat).
    { subst m. destruct (List.length (decimal n) <=? f)%nat.
      - rewrite dots_app, zeros_no_dot, decimal_no_dot. reflexivity.
      - apply decimal_no_dot. }
    assert (Hl : (f < List.length m)%nat).
    { subst m. destruct (Nat.leb_spec (List.length (decimal n)) f) as [Hle | Hlt].
      - rewrite length_app. unfold zeros. rewrite repeat_length. 
        pose proof (decimal_nonempty n) as Hne.
        destruct (decimal n); [contradiction | simpl in *; lia].
      - exact Hlt. }
    destruct (dots_firstn_skipn (List.length m - f) m Hm) as [H1 H2].
    apply well_pointed_inside; [exact H1 | exact H2 |].
    intros Hnil. apply (f_equal (@List.length _)) in Hnil.
    rewrite length_skipn in Hnil. simpl in Hnil. lia.
Qed.

Lemma exponent_part_no_dot n : dots (exponent_part n) = 0%nat.
Proof.
  unfold exponent_part. rewrite !dots_app, decimal_no_dot.
  destruct (0 <=? n - 1)%Z; reflexivity.
Qed.

Lemma layout_shape ds n :
  dots ds = 0%nat -> ds <> [] -> well_pointed (layout ds n).
Proof.
  intros Hd Hne. unfold layout.
  set (k := Z.of_nat (List.length ds)).
  destruct ((k <=? n)%Z && (n <=? 21)%Z) eqn:E1.
  { apply well_pointed_no_dot. rewrite dots_app, zeros_no_dot. lia. }
  destruct ((0 <? n)%Z && (n <=? 21)%Z) eqn:E2.
  { destruct (dots_firstn_skipn (Z.to_nat n) ds Hd) as [H1 H2].
    apply well_pointed_inside; [exact H1 | exact H2 |].
    intros Hnil. apply (f_equal (@List.length _)) in Hnil.
    rewrite length_skipn in Hnil. simpl in Hnil.
    apply andb_true_iff in E2 as [E2 E3].
    rewrite E3, andb_true_r in E1. subst k. lia. }
  destruct ((-6 <? n)%Z && (n <=? 0)%Z) eqn:E3.
  { apply (well_pointed_inside [zero_cu] (zeros (Z.to_nat (- n)) ++ ds)).
    - reflexivity.
    - rewrite dots_app, zeros_no_dot. exact Hd.
    - intros Hnil. apply app_eq_nil in Hnil as [_ Hnil]. contradiction. }
  destruct ds as [| d [| d' rest]]; [contradiction | |].
  - apply well_pointed_no_dot.
    change (d :: exponent_part n) with ([d] ++ exponent_part n).
    rewrite dots_app, exponent_part_no_dot. lia.
  - change (d :: dot_cu :: (d' :: rest) ++ exponent_part n)
      with ([d] ++ dot_cu :: ((d' :: rest) ++ exponent_part n)).
    change (d :: d' :: rest) with ([d] ++ d' :: rest) in Hd.
    rewrite dots_app in Hd.
    apply well_pointed_inside.
    + lia.
    + rewrite dots_app, exponent_part_no_dot. lia.
    + discriminate.
Qed.

Lemma digits_of_shape m e :
  dots (fst (digits_of m e)) = 0%nat /\ fst (digits_of m e) <> [].
Proof.
  unfold digits_of.
  destruct (shortest 20 (S754_finite false m e) (num_of m e) (den_of e)
                     (decimal_exponent (num_of m e) (den_of e)) 1) as [s k].
  destruct (s =? 10 ^ Z.to_N k)%N; cbn [fst];
    split; auto using decimal_no_dot, decimal_nonempty.
Qed.

Lemma Number_toString_shape x : well_pointed (Number_toString x).
Proof.
  destruct x as [s | s | | s m e]; cbn [Number_toString].
  - apply well_pointed_no_dot. reflexivity.
  - destruct s; apply well_pointed_no_dot; reflexivity.
  - apply well_pointed_no_dot. reflexivity.
  - apply well_pointed_sign.
    destruct (digits_of_shape m e) as [H1 H2].
    destruct (digits_of m e) as [ds n]. cbn [fst] in *.
    apply layout_shape; assumption.
Qed.

(** [x.toFixed(f)] holds at most one point and never ends with it. *)
Lemma toFixed_shape x f : well_pointed (toFixed x f).
Proof.
  destruct x as [s | s | | s m e]; cbn [toFixed].
  - apply fixed_layout_shape.
  - apply Number_toString_shape.
  - apply Number_toString_shape.
  - apply well_pointed_sign. destruct (at_least_1e21 m e).
    + apply (Number_toString_shape (S754_finite false m e)).
    + apply fixed_layout_shape.
Qed.

End FixedShape.

(** C2: every finite number whose magnitude is below [1e-12] is rendered as
    ["0"]; in particular [fmt(1e-13) = "0"]. *)
Theorem fmt_tiny_is_zero (x : number) :
  is_finite x = true ->
  lt (Math_abs x) tiny = true ->
  fmt x = js "0" /\ fmt num_1e_13 = js "0".
Proof.
  intros _ H. unfold fmt. rewrite H. split; [reflexivity |].
  vm_compute. reflexivity.
Qed.

Lemma fmt_tiny_is_zero_witness :
  is_finite num_1e_13 = true
  /\ lt (Math_abs num_1e_13) tiny = true
  /\ fmt num_1e_13 = js "0".
Proof.
  split; [vm_compute; reflexivity |].
  split; [vm_compute; reflexivity |].
  apply (fmt_tiny_is_zero num_1e_13); vm_compute; reflexivity.
Defined.

(** C3 (as stated): the finite number 10 is not below [1e-12] and [fmt(10)]
    is ["10"], which ends with a zero. *)
Lemma fmt_ten_keeps_zero :
  is_finite num_10 = true
  /\ lt (Math_abs num_10) tiny = false
  /\ fmt num_10 = js "10"
  /\ ends_with_cu zero_cu (fmt num_10) = true.
Proof.
  split; [| split; [| split]]; vm_compute; reflexivity.
Qed.

(** C3 (amended): for every number [x], [fmt(x)] does not end with a decimal
    point and, when it contains a decimal point, does not end with a zero;
    in particular [fmt(0.1) = "0.1"], [fmt(1.5) = "1.5"] and
    [fmt(-2) = "-2"]. *)
Theorem fmt_no_trailing_fraction_zero (x : number) :
  ends_with_cu dot_cu (fmt x) = false
  /\ has_dot (fmt x) && ends_with_cu zero_cu (fmt x) = false
  /\ fmt num_0_1 = js "0.1"
  /\ fmt num_1_5 = js "1.5"
  /\ fmt num_neg_2 = js "-2".
Proof.
  assert (H : ends_with_cu dot_cu (fmt x) = false
              /\ has_dot (fmt x) && ends_with_cu zero_cu (fmt x) = false).
  { unfold fmt. destruct (lt (Math_abs x) tiny).
    - split; reflexivity.
    - destruct (toFixed_shape x 6) as [Hd He].
      apply strip_zeros_shape; assumption. }
  destruct H as [H1 H2].
  split; [exact H1 |]. split; [exact H2 |].
  split; [| split]; vm_compute; reflexivity.
Qed.

(** C4 (the code at the failing input): [1e30] is finite and not below
    [1e-12]; [toFixed] falls back to the exponent notation ["1e+30"], the
    zero of the exponent is cut off, [fmt(1e30)] is ["1e+3"], which parses
    to 1000, further than [1e-6] from [1e30]. *)
Theorem fmt_cuts_exponent_zero :
  is_finite num_1e30 = true
  /\ lt (Math_abs num_1e30) tiny = false
  /\ toFixed num_1e30 6 = js "1e+30"
  /\ fmt num_1e30 = js "1e+3"
  /\ parseFloat (fmt num_1e30) = of_decimal false 1000 0
  /\ lt num_1e_6 (Math_abs (sub (parseFloat (fmt num_1e30)) num_1e30)) = true.
Proof.
  split; [| split; [| split; [| split; [| split]]]]; vm_compute; reflexivity.
Qed.

Section NearZero.

Lemma round_scaled_zero_small m e f :
  round_scaled m e f = 0%N -> at_least_1e21 m e = false.
Proof.
  unfold round_scaled, at_least_1e21. intros H.
  set (num := Zpos (num_of m e)) in *. set (den := Zpos (den_of e)) in *.
  assert (Hn : (0 < num)%Z) by (subst num; lia).
  assert (Hd : (0 < den)%Z) by (subst den; lia).
  assert (Hp : (0 < 10 ^ Z.of_nat f)%Z) by (apply Z.pow_pos_nonneg; lia).
  assert (Hq : ((2 * (num * 10 ^ Z.of_nat f) + den) / (2 * den) = 0)%Z).
  { assert (0 <= (2 * (num * 10 ^ Z.of_nat f) + den) / (2 * den))%Z
      by (apply Z.div_pos; nia).
    lia. }
  apply Z.div_small_iff in Hq; [| lia].
  apply Z.leb_gt. nia.
Qed.

End NearZero.

(** C10: a finite number that is not below [1e-12] in magnitude and whose
    magnitude rounds to zero at six decimals is rendered as ["-0"] when it is
    negative and as ["0"] when it is positive; so [fmt(-1e-8) = "-0"] while
    [fmt(1e-8) = "0"], both being at least [1e-12] in magnitude. *)
Theorem fmt_negative_zero (s : bool) (m : positive) (e : Z) :
  lt (Math_abs (S754_finite s m e)) tiny = false ->
  round_scaled m e 6 = 0%N ->
  fmt (S754_finite s m e) = (if s then js "-0" else js "0")
  /\ lt (Math_abs num_neg_1e_8) tiny = false
  /\ fmt num_neg_1e_8 = js "-0"
  /\ lt (Math_abs num_1e_8) tiny = false
  /\ fmt num_1e_8 = js "0".
Proof.
  intros Hl Hr. split.
  - unfold fmt. rewrite Hl. cbn [toFixed].
    rewrite (round_scaled_zero_small m e 6 Hr), Hr.
    destruct s; vm_compute; reflexivity.
  - split; [| split; [| split]]; vm_compute; reflexivity.
Qed.

Lemma fmt_negative_zero_witness :
  lt (Math_abs (S754_finite true 6044629098073146 (-79))) tiny = false
  /\ round_scaled 6044629098073146 (-79) 6 = 0%N
  /\ fmt (S754_finite true 6044629098073146 (-79)) = js "-0".
Proof.
  split; [vm_compute; reflexivity |].
  split; [vm_compute; reflexivity |].
  apply (fmt_negative_zero true 6044629098073146 (-79));
    vm_compute; reflexivity.
Defined.

(** ** Properties of the report tree *)

Section Tree.

Lemma elements_by_tag_children t cs :
  (fix all (ns : list node) : list node :=
     match ns with
     | [] => []
     | c :: rest => elements_by_tag t c ++ all rest
     end) cs = flat_map (elements_by_tag t) cs.
Proof. induction cs as [| c cs IH]; [reflexivity |]. simpl. now rewrite IH. Qed.

Lemma elements_by_tag_Element t t' p cs :
  elements_by_tag t (Element t' p cs)
  = (if String.eqb t' t then [Element t' p cs] else [])
      ++ flat_map (elements_by_tag t) cs.
Proof. cbn [elements_by_tag]. now rewrite elements_by_tag_children. Qed.

Lemma elements_by_tag_Fragment t k cs :
  elements_by_tag t (Fragment k cs) = flat_map (elements_by_tag t) cs.
Proof. cbn [elements_by_tag]. now rewrite elements_by_tag_children. Qed.

Lemma elements_by_tag_Many t cs :
  elements_by_tag t (Many cs) = flat_map (elements_by_tag t) cs.
Proof. cbn [elements_by_tag]. now rewrite elements_by_tag_children. Qed.

Lemma flat_map_singletons {A B : Type} (f : A -> list B) (g : A -> B) xs :
  (forall x, f x = [g x]) -> flat_map f xs = List.map g xs.
Proof.
  intros H. induction xs as [| x xs IH]; [reflexivity |].
  simpl. rewrite H, IH. reflexivity.
Qed.

Lemma flat_map_empty {A B : Type} (f : A -> list B) xs :
  (forall x, f x = []) -> flat_map f xs = [].
Proof.
  intros H. induction xs as [| x xs IH]; [reflexivity |].
  simpl. rewrite H, IH. reflexivity.
Qed.

Lemma flat_map_map_from {A B C : Type} (f : A -> nat -> B) (h : B -> list C)
      (g : A -> nat -> C) xs i :
  (forall x j, h (f x j) = [g x j]) ->
  flat_map h (map_from f i xs) = map_from g i xs.
Proof.
  intros H. revert i. induction xs as [| x xs IH]; intros i; [reflexivity |].
  simpl. rewrite H, IH. reflexivity.
Qed.

Lemma flat_map_map_from_empty {A B C : Type} (f : A -> nat -> B)
      (h : B -> list C) xs i :
  (forall x j, h (f x j) = []) -> flat_map h (map_from f i xs) = [].
Proof.
  intros H. revert i. induction xs as [| x xs IH]; intros i; [reflexivity |].
  simpl. rewrite H, IH. reflexivity.
Qed.

Lemma map_from_length {A B : Type} (f : A -> nat -> B) i xs :
  List.length (map_from f i xs) = List.length xs.
Proof.
  revert i. induction xs as [| x xs IH]; intros i; [reflexivity |].
  simpl. now rewrite IH.
Qed.

Lemma map_map_from {A B C : Type} (f : A -> nat -> B) (h : B -> C) i xs :
  List.map h (map_from f i xs) = map_from (fun x j => h (f x j)) i xs.
Proof.
  revert i. induction xs as [| x xs IH]; intros i; [reflexivity |].
  simpl. now rewrite IH.
Qed.

Lemma map_from_ext {A B : Type} (f g : A -> nat -> B) i xs :
  (forall x j, f x j = g x j) -> map_from f i xs = map_from g i xs.
Proof.
  intros H. revert i. induction xs as [| x xs IH]; intros i; [reflexivity |].
  simpl. now rewrite H, IH.
Qed.

(** *** One row *)

Lemma coef_cells_td cs :
  flat_map (elements_by_tag "td") (mapi coef_cell cs) = mapi coef_cell cs.
Proof.
  unfold mapi. rewrite (flat_map_map_from _ _ coef_cell); [reflexivity |].
  intros x j. reflexivity.
Qed.

Lemma coef_cells_other t cs :
  String.eqb "td" t = false ->
  flat_map (elements_by_tag t) (mapi coef_cell cs) = [].
Proof.
  intros H. unfold mapi. apply flat_map_map_from_empty.
  intros x j. unfold coef_cell. rewrite elements_by_tag_Element, H.
  reflexivity.
Qed.

Lemma row_cells m idx :
  List.length (elements_by_tag "td" (model_row m idx))
  = (List.length (coef m) + 6)%nat.
Proof.
  unfold model_row. rewrite elements_by_tag_Element.
  cbn [String.eqb Ascii.eqb Bool.eqb app flat_map].
  rewrite !elements_by_tag_Element, elements_by_tag_Many.
  rewrite coef_cells_td, !length_app. unfold mapi.
  rewrite map_from_length. cbn. lia.
Qed.

Lemma row_elements t m idx :
  String.eqb "td" t = false ->
  elements_by_tag t (model_row m idx)
  = if String.eqb "tr" t then [model_row m idx] else [].
Proof.
  intros Htd. unfold model_row at 1. rewrite elements_by_tag_Element.
  fold (model_row m idx).
  cbn [flat_map]. rewrite !elements_by_tag_Element, elements_by_tag_Many.
  rewrite (coef_cells_other t _ Htd), Htd.
  cbn [app flat_map elements_by_tag]. rewrite app_nil_r.
  unfold model_row. reflexivity.
Qed.

Lemma row_class m idx :
  class_of (model_row m idx)
  = if Nat.odd idx then Some CLS_tbodyEven else None.
Proof.
  cbn [model_row class_of className].
  destruct (Nat.odd idx) eqn:E.
  - apply Nat.odd_spec in E. destruct E as [k ->].
    replace ((2 * k + 1) mod 2) with 1%nat; [reflexivity |].
    symmetry. rewrite Nat.add_comm, Nat.mul_comm. 
    rewrite Nat.Div0.mod_add. reflexivity.
  - assert (Ev : Nat.even idx = true)
      by (rewrite <- Nat.negb_odd, E; reflexivity).
    apply Nat.even_spec in Ev. destruct Ev as [k ->].
    rewrite Nat.mul_comm, Nat.Div0.mod_mul. reflexivity.
Qed.

End Tree.

Section Objects.

Context {V : Type}.

Lemma jsstring_eqb_eq s t : JsString.eqb s t = true <-> s = t.
Proof.
  revert t. induction s as [| a s IH]; intros [| b t]; simpl;
    try (split; [discriminate | discriminate]); [tauto |].
  rewrite andb_true_iff, IH. unfold cu_eqb. rewrite N.eqb_eq.
  split; [intros [-> ->]; reflexivity | intros H; inversion H; auto].
Qed.

Lemma jsstring_eqb_refl s : JsString.eqb s s = true.
Proof. apply jsstring_eqb_eq. reflexivity. Qed.

(** A key that no property has yet goes last. *)
Lemma define_fresh (o : obj V) k v :
  forallb (fun k' => negb (JsString.eqb k' k)) (keys o) = true ->
  define o k v = o ++ [(k, v)].
Proof.
  induction o as [| [k' v'] o IH]; [reflexivity |].
  cbn [keys List.map fst forallb define]. intros H.
  apply andb_true_iff in H as [H1 H2]. apply negb_true_iff in H1.
  rewrite H1. cbn [app]. f_equal. apply IH. exact H2.
Qed.

Lemma of_members_from (acc ms : obj V) :
  forallb (fun k' => negb (existsb (JsString.eqb k') (keys ms))) (keys acc)
  = true ->
  distinct (keys ms) = true ->
  fold_left (fun o kv => define o (fst kv) (snd kv)) ms acc = acc ++ ms.
Proof.
  revert acc. induction ms as [| [k v] ms IH]; intros acc Ha Hd.
  - cbn [fold_left]. now rewrite app_nil_r.
  - cbn [fold_left fst snd]. cbn [keys List.map fst distinct] in Hd.
    apply andb_true_iff in Hd as [Hk Hd]. apply negb_true_iff in Hk.
    rewrite define_fresh.
    + rewrite IH.
      * rewrite <- app_assoc. reflexivity.
      * unfold keys. rewrite map_app, forallb_app. cbn [List.map fst forallb].
        rewrite andb_true_r. apply andb_true_iff. split.
        -- rewrite forallb_forall in Ha |- *. intros k' Hin.
           specialize (Ha k' Hin). cbn [keys List.map fst existsb] in Ha.
           apply negb_true_iff in Ha. apply orb_false_iff in Ha as [_ Ha].
           apply negb_true_iff. exact Ha.
        -- apply negb_true_iff. exact Hk.
      * exact Hd.
    + rewrite forallb_forall in Ha |- *. intros k' Hin.
      specialize (Ha k' Hin). cbn [keys List.map fst existsb] in Ha.
      apply negb_true_iff in Ha. apply orb_false_iff in Ha as [Ha _].
      apply negb_true_iff. exact Ha.
Qed.

(** A JSON object with pairwise different keys is loaded with its members
    in their order. *)
Lemma of_members_distinct (ms : list (jsstring * V)) :
  distinct (keys ms) = true -> of_members ms = ms.
Proof.
  intros H. unfold of_members. rewrite of_members_from; auto.
Qed.

Lemma insert_by_index_length i (e : jsstring * V) l :
  List.length (insert_by_index i e l) = S (List.length l).
Proof.
  induction l as [| [j e'] l IH]; [reflexivity |].
  cbn [insert_by_index]. destruct (i <=? j)%N; cbn [List.length]; auto.
Qed.

Lemma index_entries_length (o : obj V) :
  List.length (index_entries o)
  = List.length (List.filter (fun kv => is_index (fst kv)) o).
Proof.
  induction o as [| [k v] o IH]; [reflexivity |].
  cbn [index_entries List.filter fst]. unfold is_index at 1.
  destruct (array_index k).
  - rewrite insert_by_index_length. cbn [List.length]. now rewrite IH.
  - exact IH.
Qed.

(** [Object.entries] lists every property once. *)
Lemma entries_length (o : obj V) :
  List.length (entries o) = List.length o.
Proof.
  unfold entries. rewrite length_app, length_map, index_entries_length.
  apply (filter_length (fun kv => is_index (fst kv))).
Qed.

Lemma index_entries_none (o : obj V) :
  forallb (fun kv => negb (is_index (fst kv))) o = true ->
  index_entries o = [].
Proof.
  induction o as [| [k v] o IH]; [reflexivity |].
  cbn [forallb index_entries fst]. intros H.
  apply andb_true_iff in H as [H1 H2]. unfold is_index in H1.
  destruct (array_index k); [discriminate H1 | auto].
Qed.

(** Without array-index keys, [Object.entries] keeps the creation order. *)
Lemma entries_no_index (o : obj V) :
  forallb (fun kv => negb (is_index (fst kv))) o = true ->
  entries o = o.
Proof.
  intros H. unfold entries. rewrite index_entries_none by exact H.
  cbn [List.map app]. apply forallb_filter_id. exact H.
Qed.

End Objects.

Section ReportShape.

Variable asset_href : jsstring -> jsstring.

Lemma rows_by_tag t ms :
  String.eqb "td" t = false ->
  flat_map (elements_by_tag t) (mapi model_row ms)
  = if String.eqb "tr" t then mapi model_row ms else [].
Proof.
  intros Htd. unfold mapi. destruct (String.eqb "tr" t) eqn:Htr.
  - rewrite (flat_map_map_from _ _ model_row); [reflexivity |].
    intros m j. rewrite row_elements, Htr by exact Htd. reflexivity.
  - apply flat_map_map_from_empty.
    intros m j. rewrite row_elements, Htr by exact Htd. reflexivity.
Qed.

Lemma operation_table_by_tag t ms :
  String.eqb "td" t = false ->
  elements_by_tag t (operation_table ms)
  = (if String.eqb "table" t then [operation_table ms] else [])
      ++ elements_by_tag t table_head
      ++ (if String.eqb "tbody" t
          then [Element "tbody" no_props [Many (mapi model_row ms)]]
          else [])
      ++ (if String.eqb "tr" t then mapi model_row ms else []).
Proof.
  intros Htd. unfold operation_table at 1.
  rewrite elements_by_tag_Element. fold (operation_table ms).
  cbn [flat_map]. rewrite elements_by_tag_Element. cbn [flat_map].
  rewrite elements_by_tag_Many, rows_by_tag by exact Htd.
  rewrite !app_nil_r. reflexivity.
Qed.

Lemma body_rows_operation_table ms :
  body_rows (operation_table ms) = mapi model_row ms.
Proof.
  unfold body_rows. rewrite operation_table_by_tag by reflexivity.
  cbn [String.eqb Ascii.eqb Bool.eqb app].
  change (elements_by_tag "tbody" table_head) with (@nil node).
  cbn [app flat_map]. rewrite elements_by_tag_Element. cbn [flat_map].
  rewrite elements_by_tag_Many, rows_by_tag by reflexivity.
  cbn [String.eqb Ascii.eqb Bool.eqb app]. now rewrite !app_nil_r.
Qed.

Lemma row_shape_model_row m idx :
  row_shape (model_row m idx)
  = ((List.length (coef m) + 6)%nat,
     if Nat.odd idx then Some CLS_tbodyEven else None).
Proof. unfold row_shape. now rewrite row_cells, row_class. Qed.

Lemma shape_operation_table info :
  List.map row_shape (body_rows (operation_table (models info)))
  = rows_shape 6 info.
Proof.
  rewrite body_rows_operation_table. unfold rows_shape, mapi.
  rewrite map_map_from. apply map_from_ext.
  intros m j. apply row_shape_model_row.
Qed.

Lemma section_by_tag t e :
  String.eqb "td" t = false ->
  elements_by_tag t (operation_section asset_href e)
  = elements_by_tag t (operation_caption (fst e))
      ++ elements_by_tag t (operation_table (models (snd e)))
      ++ (if String.eqb "p" t
          then [Element "p"
                  (with_attrs [("style"%string,
                                AStyle [("width"%string, js "70%");
                                        ("margin"%string, js "0 auto")])])
                  [operation_image asset_href (fst e) (image (snd e))]]
          else [])
      ++ (if String.eqb "img" t
          then [operation_image asset_href (fst e) (image (snd e))]
          else []).
Proof.
  intros Htd. destruct e as [op info]. cbn [operation_section fst snd].
  rewrite elements_by_tag_Fragment. cbn [flat_map].
  rewrite (elements_by_tag_Element t "p"). cbn [flat_map].
  unfold operation_image at 2. rewrite (elements_by_tag_Element t "img").
  fold (operation_image asset_href op (image info)).
  cbn [flat_map]. rewrite !app_nil_r, <- ?app_assoc. reflexivity.
Qed.

Lemma report_by_tag t data :
  String.eqb "td" t = false ->
  String.eqb "button" t = false ->
  String.eqb "h1" t = false ->
  elements_by_tag t Intro = [] ->
  exists body,
    elements_by_tag t (RegressionReport asset_href data)
    = (if String.eqb "div" t then [body] else [])
        ++ flat_map (elements_by_tag t)
                    (List.map (operation_section asset_href) (entries data))
    /\ class_of body = Some CLS_body.
Proof.
  intros Htd Hb Hh Hi. unfold RegressionReport.
  eexists. split.
  - rewrite elements_by_tag_Fragment. cbn [flat_map].
    rewrite (elements_by_tag_Element t "button"), Hb. cbn [flat_map app].
    rewrite (elements_by_tag_Element t "div"). cbn [flat_map].
    rewrite (elements_by_tag_Element t "h1"), Hh, Hi. cbn [flat_map app].
    rewrite elements_by_tag_Many, !app_nil_r. reflexivity.
  - reflexivity.
Qed.

(** The tables of the report: the table of every entry, in order. *)
Lemma report_tables data :
  elements_by_tag "table" (RegressionReport asset_href data)
  = List.map (fun e => operation_table (models (snd e))) (entries data).
Proof.
  destruct (report_by_tag "table" data) as (body & -> & _);
    try reflexivity.
  cbn [String.eqb Ascii.eqb Bool.eqb app]. rewrite flat_map_concat_map, map_map.
  rewrite <- flat_map_concat_map.
  apply flat_map_singletons. intros e.
  rewrite section_by_tag by reflexivity.
  rewrite operation_table_by_tag by reflexivity.
  reflexivity.
Qed.

Lemma report_captions data :
  captions (RegressionReport asset_href data)
  = List.map (fun e => caption_text (fst e)) (entries data).
Proof.
  unfold captions.
  destruct (report_by_tag "div" data) as (body & -> & Hc);
    try reflexivity.
  cbn [String.eqb Ascii.eqb Bool.eqb app List.filter].
  unfold has_class at 1. rewrite Hc.
  change (JsString.eqb CLS_body CLS_caption) with false. cbv iota.
  rewrite flat_map_concat_map, map_map, <- flat_map_concat_map.
  rewrite (flat_map_singletons _ (fun e => operation_caption (fst e))).
  - induction (entries data) as [| e es IH]; [reflexivity |].
    cbn [List.map List.filter]. 
    change (has_class CLS_caption (operation_caption (fst e))) with true.
    cbv iota. cbn [List.map]. rewrite IH. f_equal.
    unfold caption_text. cbn. now rewrite app_nil_r.
  - intros e. rewrite section_by_tag by reflexivity.
    rewrite operation_table_by_tag by reflexivity. reflexivity.
Qed.

Lemma report_images data :
  image_sources (RegressionReport asset_href data)
  = List.map (fun e => Some (AStr (asset_href (js "./assets/" ++ image (snd e)))))
             (entries data).
Proof.
  unfold image_sources.
  destruct (report_by_tag "img" data) as (body & -> & _);
    try reflexivity.
  cbn [String.eqb Ascii.eqb Bool.eqb app].
  rewrite flat_map_concat_map, map_map, <- flat_map_concat_map.
  rewrite (flat_map_singletons
             _ (fun e => operation_image asset_href (fst e) (image (snd e)))).
  - rewrite map_map. reflexivity.
  - intros e. rewrite section_by_tag by reflexivity.
    rewrite operation_table_by_tag by reflexivity. reflexivity.
Qed.

Lemma report_table_shapes data :
  table_shapes (RegressionReport asset_href data)
  = List.map (fun e => rows_shape 6 (snd e)) (entries data).
Proof.
  unfold table_shapes. rewrite report_tables, map_map.
  apply map_ext. intros e. apply shape_operation_table.
Qed.

End ReportShape.

(** C6 (as stated): in the report of the sample data the body rows hold
    eight cells each, for models with two coefficients: six fixed cells, not
    five. *)
Lemma report_rows_not_five_fixed :
  table_shapes (RegressionReport (fun rel => rel) (of_members sample_members))
  <> List.map (fun e => rows_shape 5 (snd e))
              (entries (of_members sample_members)).
Proof. vm_compute. discriminate. Qed.

(** C6 (amended): for every ReportData the report contains exactly one table
    per operation of the mapping, in the order of [Object.entries]; each
    table has exactly one body row per model of its operation; each body row
    has as many cells as the model has coefficients plus the six fixed ones
    (degree, variance, standard deviation, code, explanation, comment); and
    the even-row class is on exactly the rows at odd zero-based index. *)
Theorem report_one_table_per_operation
        (asset_href : jsstring -> jsstring) (data : ReportData) :
  List.length (elements_by_tag "table" (RegressionReport asset_href data))
  = List.length data
  /\ table_shapes (RegressionReport asset_href data)
     = List.map (fun e => rows_shape 6 (snd e)) (entries data)
  /\ (forall info, List.length (rows_shape 6 info) = List.length (models info)).
Proof.
  split; [| split].
  - rewrite report_tables, length_map. apply entries_length.
  - apply report_table_shapes.
  - intros info. unfold rows_shape, mapi. apply map_from_length.
Qed.

(** C7 (as stated): a JSON object with the keys ["b"], ["1"] in this order is
    rendered with the caption of ["1"] first. *)
Lemma report_order_not_insertion :
  captions (RegressionReport (fun rel => rel) (of_members numbered_members))
  = [caption_text (js "1"); caption_text (js "b")]
  /\ captions (RegressionReport (fun rel => rel) (of_members numbered_members))
     <> List.map (fun kv => caption_text (fst kv)) numbered_members.
Proof. split; [vm_compute; reflexivity | vm_compute; discriminate]. Qed.

(** C7 (amended): for every JSON object with pairwise different keys none of
    which is an array index (a canonical decimal string below [2^32 - 1]),
    the operations are rendered in the order of the keys in the JSON object:
    the captions, the tables and the images follow that order. *)
Theorem report_follows_insertion_order
        (asset_href : jsstring -> jsstring)
        (members : list (jsstring * OperationInfo)) :
  distinct (keys members) = true ->
  forallb (fun kv => negb (is_index (fst kv))) members = true ->
  let report := RegressionReport asset_href (of_members members) in
  captions report = List.map (fun kv => caption_text (fst kv)) members
  /\ table_shapes report = List.map (fun kv => rows_shape 6 (snd kv)) members
  /\ image_sources report
     = List.map (fun kv =>
                   Some (AStr (asset_href (js "./assets/" ++ image (snd kv)))))
                members.
Proof.
  intros Hd Hi report. subst report.
  rewrite report_captions, report_table_shapes, report_images.
  rewrite (of_members_distinct members Hd).
  rewrite (entries_no_index members Hi).
  split; [| split]; reflexivity.
Qed.

Lemma report_follows_insertion_order_witness :
  distinct (keys sample_members) = true
  /\ forallb (fun kv => negb (is_index (fst kv))) sample_members = true
  /\ captions (RegressionReport (fun rel => rel) (of_members sample_members))
     = [caption_text (js "insert"); caption_text (js "delete")].
Proof.
  split; [vm_compute; reflexivity |].
  split; [vm_compute; reflexivity |].
  apply (report_follows_insertion_order (fun rel => rel) sample_members);
    vm_compute; reflexivity.
Defined.

(** ** Properties of the export action *)

(** C8: on every click with the report container mounted, the conversion
    library is requested and, once loaded, invoked exactly once against the
    container with the fixed configuration: file name ["regression.pdf"],
    margins of 10 on all four sides in millimetres, JPEG images of quality
    0.98, canvas scale 1 with the width of the element's scroll width, A4
    portrait pages, page breaks avoided for the table and image classes.
    The handler's promise is fulfilled without waiting, nothing is tried a
    second time, and a rejection of the load or of the conversion is left
    unhandled. *)
Theorem export_fixed_configuration
        (import_ : jsstring -> Pdf.settled Pdf.Html2Pdf)
        (el : Pdf.HTMLDivElement) :
  let r := Pdf.downloadPdf import_ (Some el) in
  let o := Pdf.opt el in
  Pdf.returned r = Pdf.Fulfilled tt
  /\ match import_ (js "html2pdf.js") with
     | Pdf.Fulfilled pdf =>
       Pdf.trace r = [Pdf.Import (js "html2pdf.js"); Pdf.Save o el]
       /\ Pdf.unhandled r = match Pdf.save pdf o el with
                            | Pdf.Fulfilled _ => []
                            | Pdf.Rejected e => [e]
                            end
     | Pdf.Rejected e =>
       Pdf.trace r = [Pdf.Import (js "html2pdf.js")]
       /\ Pdf.unhandled r = [e]
     end
  /\ Pdf.filename o = js "regression.pdf"
  /\ Pdf.margin o = repeat (of_decimal false 10 0) 4
  /\ Pdf.image o = {| Pdf.type := js "jpeg";
                      Pdf.quality := of_decimal false 98 (-2) |}
  /\ Pdf.html2canvas o = {| Pdf.scale := of_decimal false 1 0;
                            Pdf.width := Pdf.scrollWidth el |}
  /\ Pdf.jsPDF o = {| Pdf.unit := js "mm"; Pdf.format := js "a4";
                      Pdf.orientation := js "portrait" |}
  /\ Pdf.avoid (Pdf.pagebreak o)
     = [js "." ++ CLS_table; js "." ++ CLS_img].
Proof.
  cbv zeta. unfold Pdf.downloadPdf.
  destruct (import_ (js "html2pdf.js")) as [pdf | e];
    repeat (split; try reflexivity).
Qed.

(** ** Further properties of [explain] *)

(** X1: decoding loses nothing on well-formed codes: two codes matching
    [[*]?[+-][+-]] with the same explanation are the same code. *)
Theorem explain_injective (c1 c2 : jsstring) :
  code_ok c1 = true -> code_ok c2 = true ->
  explain c1 = explain c2 -> c1 = c2.
Proof.
  intros H1 H2 He.
  destruct (code_ok_cases c1 H1) as (a1 & b1 & Ha1 & Hb1 & Hc1).
  destruct (code_ok_cases c2 H2) as (a2 & b2 & Ha2 & Hb2 & Hc2).
  destruct Ha1, Hb1, Hc1, Ha2, Hb2, Hc2; subst;
    first [reflexivity | vm_compute in He; discriminate He].
Qed.

Lemma explain_injective_witness :
  code_ok (js "*+-") = true /\ js "*+-" = js "*+-".
Proof.
  split; [reflexivity |].
  apply (explain_injective (js "*+-") (js "*+-")); reflexivity.
Defined.

Section ExplainAnyString.

Lemma rest_of_firstn3 code i :
(i < 2)%nat ->
nth_error (rest_of (firstn 3 code)) i = nth_error (rest_of code) i.
Proof.
intros Hi. unfold rest_of.
destruct code as [| a [| b [| c r]]]; try reflexivity.
rewrite !startsWith_star. cbn [firstn].
destruct (cu_eqb a star_cu); cbn [slice skipn];
  destruct i as [| [| i]]; try reflexivity; lia.
Qed.

Lemma sign_at_firstn3 code i :
(i < 2)%nat ->
sign_at (rest_of (firstn 3 code)) i = sign_at (rest_of code) i.
Proof. intros Hi. unfold sign_at. now rewrite rest_of_firstn3. Qed.

Lemma startsWith_firstn3 code :
startsWith (firstn 3 code) (js "*") = startsWith code (js "*").
Proof. rewrite !startsWith_star. destruct code; reflexivity. Qed.

End ExplainAnyString.

(** X2: on every string, [explain] reads at most the first three code units:
    what follows them is ignored; and the result always splits at [", "]
    into the phrases pushed, three of them when the string starts with ['*']
    and two otherwise. *)
Theorem explain_reads_three_units (code : jsstring) :
  explain code = explain (firstn 3 code)
  /\ split2 comma_cu space_cu (explain code) = explain_parts code
  /\ List.length (explain_parts code)
     = (if startsWith code (js "*") then 3 else 2)%nat.
Proof.
  split; [| split].
  - unfold explain. f_equal.
    rewrite (explain_parts_eq code), (explain_parts_eq (firstn 3 code)).
    rewrite startsWith_firstn3, !sign_at_firstn3 by lia. reflexivity.
  - unfold explain. rewrite explain_parts_eq.
    destruct (startsWith code (js "*"));
      destruct (sign_at_cases (rest_of code) 0) as [-> | ->];
      destruct (sign_at_cases (rest_of code) 1) as [-> | ->];
      vm_compute; reflexivity.
  - rewrite explain_parts_eq.
    destruct (startsWith code (js "*")); reflexivity.
Qed.

(** ** Further properties of [fmt] *)

Section FmtSign.

Lemma tail_matches_minus r : tail_matches (minus_cu :: r) = false.
Proof. reflexivity. Qed.

Lemma startsWith_minus s :
startsWith s (js "-")
= match s with c :: _ => cu_eqb c minus_cu | [] => false end.
Proof. destruct s as [| c r]; [reflexivity |]. simpl. apply andb_true_r. Qed.

(** Cutting the zeros never touches a leading minus sign. *)
Lemma strip_zeros_minus s :
startsWith (strip_zeros s) (js "-") = startsWith s (js "-").
Proof.
rewrite !startsWith_minus. destruct s as [| c r]; [reflexivity |].
cbn [strip_zeros]. destruct (tail_matches (c :: r)) eqn:Hm; [| reflexivity].
destruct (cu_eqb c minus_cu) eqn:Hc; [| reflexivity].
apply cu_eqb_eq in Hc. subst c. discriminate Hm.
Qed.

Lemma digit_not_minus c : is_digit c = true -> cu_eqb c minus_cu = false.
Proof.
unfold is_digit, zero_cu, minus_cu. intros H.
apply cu_eqb_neq. intros ->. discriminate H.
Qed.

(** A string that starts with a digit does not start with a minus sign. *)
Lemma digit_head_no_minus s :
match s with c :: _ => is_digit c = true | [] => False end ->
startsWith s (js "-") = false.
Proof.
rewrite startsWith_minus. destruct s as [| c r]; [contradiction |].
apply digit_not_minus.
Qed.

Lemma digits_head s :
forallb is_digit s = true -> s <> [] ->
match s with c :: _ => is_digit c = true | [] => False end.
Proof.
destruct s as [| c r]; [contradiction |]. cbn [forallb]. intros H _.
apply andb_true_iff in H. tauto.
Qed.

Lemma head_app (P : code_unit -> Prop) (s t : jsstring) :
match s with c :: _ => P c | [] => False end ->
match s ++ t with c :: _ => P c | [] => False end.
Proof. destruct s; [contradiction | auto]. Qed.

Lemma zeros_digits k : forallb is_digit (zeros k) = true.
Proof. induction k as [| k IH]; [reflexivity |]. simpl. exact IH. Qed.

Lemma forallb_firstn {A : Type} (p : A -> bool) n (l : list A) :
forallb p l = true -> forallb p (firstn n l) = true.
Proof.
revert n. induction l as [| x l IH]; intros [| n]; try reflexivity.
cbn [forallb firstn]. intros H. apply andb_true_iff in H as [Hx Hl].
rewrite Hx. cbn [andb]. auto.
Qed.

Lemma fixed_layout_head n f :
match fixed_layout n f with c :: _ => is_digit c = true | [] => False end.
Proof.
unfold fixed_layout. destruct f as [| f'].
- apply digits_head; [apply decimal_digits | apply decimal_nonempty].
- set (f := S f').
  set (m := if (List.length (decimal n) <=? f)%nat
            then zeros (f + 1 - List.length (decimal n)) ++ decimal n
            else decimal n).
  assert (Hm : forallb is_digit m = true).
  { subst m. destruct (List.length (decimal n) <=? f)%nat.
    - rewrite forallb_app, zeros_digits, decimal_digits. reflexivity.
    - apply decimal_digits. }
  assert (Hl : (f < List.length m)%nat).
  { subst m.
    destruct (Nat.leb_spec (List.length (decimal n)) f) as [Hle | Hlt].
    - rewrite length_app. unfold zeros. rewrite repeat_length.
      pose proof (decimal_nonempty n) as Hne.
      destruct (decimal n); [contradiction | simpl in *; lia].
    - exact Hlt. }
  apply head_app. apply digits_head.
  + apply forallb_firstn. exact Hm.
  + intros Hnil. apply (f_equal (@List.length _)) in Hnil.
    rewrite length_firstn in Hnil. simpl in Hnil. lia.
Qed.

Lemma layout_head ds n :
forallb is_digit ds = true -> ds <> [] ->
match layout ds n with c :: _ => is_digit c = true | [] => False end.
Proof.
intros Hd Hne. unfold layout.
destruct ((Z.of_nat (List.length ds) <=? n)%Z && (n <=? 21)%Z).
{ apply head_app, digits_head; assumption. }
destruct ((0 <? n)%Z && (n <=? 21)%Z) eqn:E2.
{ apply head_app, digits_head.
  - apply forallb_firstn. exact Hd.
  - intros Hnil. apply (f_equal (@List.length _)) in Hnil.
    rewrite length_firstn in Hnil. simpl in Hnil.
    apply andb_true_iff in E2 as [E2 _].
    destruct ds; [contradiction | simpl in Hnil; lia]. }
destruct ((-6 <? n)%Z && (n <=? 0)%Z); [reflexivity |].
pose proof (digits_head ds Hd Hne) as Hh.
destruct ds as [| d [| d' rest]]; [contradiction | exact Hh | exact Hh].
Qed.

Lemma digits_of_digits m e : forallb is_digit (fst (digits_of m e)) = true.
Proof.
unfold digits_of.
destruct (shortest 20 (S754_finite false m e) (num_of m e) (den_of e)
                   (decimal_exponent (num_of m e) (den_of e)) 1) as [s k].
destruct (s =? 10 ^ Z.to_N k)%N; cbn [fst]; apply decimal_digits.
Qed.

Lemma toFixed_sign s m e f :
startsWith (toFixed (S754_finite s m e) f) (js "-") = s.
Proof.
cbn [toFixed]. destruct s; [reflexivity |]. cbn [app].
apply digit_head_no_minus. destruct (at_least_1e21 m e).
- cbn [Number_toString app].
  pose proof (digits_of_digits m e) as Hd.
  destruct (digits_of_shape m e) as [_ Hne].
  destruct (digits_of m e) as [ds n]. cbn [fst] in *.
  apply layout_head; assumption.
- apply fixed_layout_head.
Qed.

End FmtSign.

(** X3: [fmt] keeps the sign of every finite number that is not below
    [1e-12] in magnitude: the result starts with ["-"] exactly when the
    number is negative, also when every digit shown is a zero. *)
Theorem fmt_keeps_sign (s : bool) (m : positive) (e : Z) :
  lt (Math_abs (S754_finite s m e)) tiny = false ->
  startsWith (fmt (S754_finite s m e)) (js "-") = s.
Proof.
  intros H. unfold fmt. rewrite H.
  rewrite strip_zeros_minus. apply toFixed_sign.
Qed.

Lemma fmt_keeps_sign_witness :
  lt (Math_abs (S754_finite true 6044629098073146 (-79))) tiny = false
  /\ startsWith (fmt (S754_finite true 6044629098073146 (-79))) (js "-") = true.
Proof.
  split; [vm_compute; reflexivity |].
  apply (fmt_keeps_sign true 6044629098073146 (-79)). vm_compute. reflexivity.
Defined.

(** X4: [fmt] does not reject the numbers that are not finite: [NaN] is
    shown as ["NaN"] and the infinities as ["Infinity"] and ["-Infinity"]. *)
Theorem fmt_not_finite (x : number) :
  is_finite x = false ->
  fmt x = match x with
          | S754_infinity true => js "-Infinity"
          | S754_infinity false => js "Infinity"
          | _ => js "NaN"
          end.
Proof.
  destruct x as [s | [|] | | s m e]; intros H; try discriminate H;
    vm_compute; reflexivity.
Qed.

Lemma fmt_not_finite_witness :
  is_finite S754_nan = false /\ fmt S754_nan = js "NaN".
Proof.
  split; [reflexivity |]. apply (fmt_not_finite S754_nan). reflexivity.
Defined.

(** The integer [n] that [toFixed] prints for a finite [m * 2^e] with
    [f] decimals is the nearest one, the larger of two nearest:
    [n - 1/2 <= m * 2^e * 10^f < n + 1/2]; so [n / 10^f] is within
    [1 / (2 * 10^f)] of the number.  With [m * 2^e = num / den] this reads
    [2 * n * den - den <= 2 * num * 10^f < 2 * n * den + den]. *)
Theorem toFixed_rounds_to_nearest (m : positive) (e : Z) (f : nat) :
  let num := Zpos (num_of m e) in
  let den := Zpos (den_of e) in
  let n := Z.of_N (round_scaled m e f) in
  (2 * n * den - den <= 2 * (num * 10 ^ Z.of_nat f) < 2 * n * den + den)%Z
  /\ (2 * Z.abs (n * den - num * 10 ^ Z.of_nat f) <= den)%Z.
Proof.
  cbv zeta. unfold round_scaled.
  set (num := Zpos (num_of m e)). set (den := Zpos (den_of e)).
  set (p := (10 ^ Z.of_nat f)%Z).
  assert (Hden : (0 < den)%Z) by (subst den; lia).
  assert (Hnum : (0 < num)%Z) by (subst num; lia).
  assert (Hp : (0 < p)%Z) by (subst p; apply Z.pow_pos_nonneg; lia).
  assert (Hq : (0 <= (2 * (num * p) + den) / (2 * den))%Z)
    by (apply Z.div_pos; nia).
  rewrite Z2N.id by exact Hq.
  pose proof (Z.div_mod (2 * (num * p) + den) (2 * den) ltac:(lia)) as Hdm.
  pose proof (Z.mod_pos_bound (2 * (num * p) + den) (2 * den) ltac:(lia)) as Hb.
  set (q := ((2 * (num * p) + den) / (2 * den))%Z) in *.
  set (r := ((2 * (num * p) + den) mod (2 * den))%Z) in *.
  clearbody q r. subst p.
  set (np := (num * 10 ^ Z.of_nat f)%Z) in *.
  replace (2 * den * q)%Z with (2 * (q * den))%Z in Hdm by ring.
  replace (2 * q * den)%Z with (2 * (q * den))%Z by ring.
  set (qd := (q * den)%Z) in *. clearbody np qd.
  split; lia.
Qed.

Section DecimalValue.

Lemma digits_value_from ds acc :
fold_left (fun a c => (10 * a + (c - zero_cu))%N) ds acc
= (acc * 10 ^ N.of_nat (List.length ds) + digits_value ds)%N.
Proof.
unfold digits_value. revert acc.
induction ds as [| c ds IH]; intros acc.
- cbn [fold_left List.length]. change (10 ^ N.of_nat 0)%N with 1%N. lia.
- cbn [fold_left List.length]. rewrite IH, (IH (10 * 0 + (c - zero_cu))%N).
  rewrite Nat2N.inj_succ, N.pow_succ_r'. lia.
Qed.

Lemma digits_value_app u v :
digits_value (u ++ v)
= (digits_value u * 10 ^ N.of_nat (List.length v) + digits_value v)%N.
Proof.
unfold digits_value at 1. rewrite fold_left_app.
fold (digits_value u). apply digits_value_from.
Qed.

Lemma digits_value_zeros j : digits_value (zeros j) = 0%N.
Proof.
induction j as [| j IH]; [reflexivity |].
change (zeros (S j)) with ([zero_cu] ++ zeros j).
rewrite digits_value_app, IH. reflexivity.
Qed.

Lemma digits_value_cons c ds :
digits_value (c :: ds)
= ((c - zero_cu) * 10 ^ N.of_nat (List.length ds) + digits_value ds)%N.
Proof.
change (c :: ds) with ([c] ++ ds). rewrite digits_value_app.
unfold digits_value at 1. cbn [fold_left]. lia.
Qed.

Lemma of_uint_acc_value u acc :
Npos (Pos.of_uint_acc u acc)
= (Npos acc * 10 ^ N.of_nat (List.length (uint_chars u))
   + digits_value (uint_chars u))%N.
Proof.
revert acc. induction u; intros acc; cbn [Pos.of_uint_acc uint_chars];
  [cbn [List.length digits_value fold_left];
   change (10 ^ N.of_nat 0)%N with 1%N; unfold digits_value; cbn; lia | ..];
  rewrite IHu, digits_value_cons; cbn [List.length];
  rewrite Nat2N.inj_succ, N.pow_succ_r';
  unfold digit, zero_cu; lia.
Qed.

Lemma of_uint_value u : N.of_uint u = digits_value (uint_chars u).
Proof.
unfold N.of_uint.
induction u; cbn [Pos.of_uint uint_chars]; try reflexivity;
  try (rewrite digits_value_cons, IHu; unfold digit, zero_cu; cbn; lia);
  rewrite of_uint_acc_value, digits_value_cons; unfold digit, zero_cu; lia.
Qed.

(** Printing a natural number in decimal and reading it back gives it. *)
Lemma digits_value_decimal n : digits_value (decimal n) = n.
Proof.
unfold decimal. rewrite <- of_uint_value. apply DecimalN.Unsigned.of_to.
Qed.

End DecimalValue.

Section FixedValue.

Lemma all_zeros_zeros s : all_zeros s = true -> s = zeros (List.length s).
Proof.
destruct s as [| c s]; [discriminate |]. unfold all_zeros.
generalize (c :: s). clear. intros s H.
induction s as [| x s IH]; [reflexivity |].
cbn [forallb] in H. apply andb_true_iff in H as [Hx Hs].
apply cu_eqb_eq in Hx. subst x. cbn [List.length zeros repeat].
f_equal. exact (IH Hs).
Qed.

Lemma is_digit_dot_false : is_digit dot_cu = false.
Proof. reflexivity. Qed.

(** On a run of digits, what is cut off is the run of zeros at its end. *)
Lemma strip_zeros_digits b :
forallb is_digit b = true ->
forallb is_digit (strip_zeros b) = true
/\ exists j, b = strip_zeros b ++ zeros j.
Proof.
induction b as [| c r IH]; intros Hb.
- split; [reflexivity | exists 0%nat; reflexivity].
- cbn [forallb] in Hb. apply andb_true_iff in Hb as [Hc Hr].
  destruct (tail_matches (c :: r)) eqn:Hm.
  + rewrite strip_zeros_match by exact Hm. split; [reflexivity |].
    unfold tail_matches in Hm.
    assert (Hcd : cu_eqb c dot_cu = false)
      by (apply cu_eqb_neq, is_digit_not_dot; exact Hc).
    rewrite Hcd in Hm. cbn [andb orb] in Hm.
    exists (List.length (c :: r)). cbn [app].
    apply all_zeros_zeros. exact Hm.
  + rewrite strip_zeros_cons by exact Hm.
    destruct (IH Hr) as [Hd [j Hj]]. split.
    * cbn [forallb]. rewrite Hc, Hd. reflexivity.
    * exists j. cbn [app]. f_equal. exact Hj.
Qed.

(** The zeros after the point go, and the point with them when nothing
  else follows it; nothing before the point is touched. *)
Lemma strip_zeros_fraction pre b :
dots pre = 0%nat -> b <> [] ->
strip_zeros (pre ++ dot_cu :: b)
= pre ++ (if all_zeros b then [] else dot_cu :: strip_zeros b).
Proof.
intros Hp Hb. induction pre as [| c p IH].
- cbn [app]. cbn [strip_zeros]. unfold tail_matches.
  change (cu_eqb dot_cu dot_cu) with true. cbn [andb].
  assert (Hz : all_zeros (dot_cu :: b) = false).
  { destruct (all_zeros (dot_cu :: b)) eqn:E; [| reflexivity].
    apply all_zeros_no_dot in E. rewrite dots_cons_dot in E. discriminate. }
  rewrite Hz, orb_false_r. destruct (all_zeros b); reflexivity.
- assert (Hc : c <> dot_cu).
  { intros ->. rewrite dots_cons_dot in Hp. discriminate. }
  rewrite dots_cons_other in Hp by exact Hc.
  cbn [app]. rewrite strip_zeros_cons.
  + rewrite (IH Hp). reflexivity.
  + unfold tail_matches. apply cu_eqb_neq in Hc. rewrite Hc. cbn [andb orb].
    destruct (all_zeros (c :: p ++ dot_cu :: b)) eqn:E; [| reflexivity].
    apply all_zeros_no_dot in E.
    change (c :: p ++ dot_cu :: b) with ((c :: p) ++ dot_cu :: b) in E.
    rewrite dots_app, dots_cons_dot in E. lia.
Qed.

Lemma span_digits_app a r :
forallb is_digit a = true ->
match r with c :: _ => is_digit c = false | [] => True end ->
span_digits (a ++ r) = (a, r).
Proof.
intros Ha Hr. induction a as [| c a IH].
- cbn [app]. destruct r as [| c r]; [reflexivity |].
  cbn [span_digits]. rewrite Hr. reflexivity.
- cbn [forallb] in Ha. apply andb_true_iff in Ha as [Hc Ha].
  cbn [app span_digits]. rewrite Hc, (IH Ha). reflexivity.
Qed.

Lemma take_sign_digit s :
match s with c :: _ => is_digit c = true | [] => False end ->
take_sign s = (false, s).
Proof.
destruct s as [| c r]; [contradiction |]. intros Hc. unfold take_sign.
assert (H1 : cu_eqb c minus_cu = false) by (apply digit_not_minus; exact Hc).
assert (H2 : cu_eqb c plus_cu = false).
{ apply cu_eqb_neq. intros ->. discriminate Hc. }
rewrite H1, H2. reflexivity.
Qed.

Lemma take_sign_signed (s : bool) a :
match a with c :: _ => is_digit c = true | [] => False end ->
take_sign ((if s then js "-" else []) ++ a) = (s, a).
Proof.
intros Ha. destruct s; [reflexivity |]. apply take_sign_digit. exact Ha.
Qed.

(** Reading [sign a] and [sign a . b] for runs of digits [a], [b]. *)
Lemma read_decimal_integer (s : bool) a :
forallb is_digit a = true -> a <> [] ->
read_decimal ((if s then js "-" else []) ++ a)
= (s, digits_value a, 0%nat, []).
Proof.
intros Ha Hne. unfold read_decimal.
rewrite take_sign_signed by (apply digits_head; assumption).
rewrite <- (app_nil_r a) at 1. rewrite span_digits_app by (exact Ha || exact I).
rewrite app_nil_r. reflexivity.
Qed.

Lemma read_decimal_fraction (s : bool) a b :
forallb is_digit a = true -> a <> [] -> forallb is_digit b = true ->
read_decimal ((if s then js "-" else []) ++ a ++ dot_cu :: b)
= (s, digits_value (a ++ b), List.length b, []).
Proof.
intros Ha Hne Hb. unfold read_decimal.
rewrite take_sign_signed
  by (apply head_app, digits_head; assumption).
rewrite span_digits_app by (exact Ha || reflexivity).
change (cu_eqb dot_cu dot_cu) with true. cbv iota.
rewrite <- (app_nil_r b) at 1. rewrite span_digits_app by (exact Hb || exact I).
reflexivity.
Qed.

Lemma sign_prefix_no_dot (s : bool) a :
dots a = 0%nat -> dots ((if s then js "-" else []) ++ a) = 0%nat.
Proof.
intros H. destruct s; [| exact H].
cbn [app js]. simpl. rewrite dots_cons_other by discriminate. exact H.
Qed.

(** The digits of [n.toFixed(f)]: [a . b] with [f] digits in [b] and the
  digits of [a b] writing [n]. *)
Lemma fixed_layout_parts n f :
exists a b,
  fixed_layout n (S f) = a ++ dot_cu :: b
  /\ forallb is_digit a = true /\ a <> []
  /\ forallb is_digit b = true /\ List.length b = S f
  /\ digits_value (a ++ b) = n.
Proof.
unfold fixed_layout.
set (m := if (List.length (decimal n) <=? S f)%nat
          then zeros (S f + 1 - List.length (decimal n)) ++ decimal n
          else decimal n).
assert (Hm : forallb is_digit m = true).
{ subst m. destruct (List.length (decimal n) <=? S f)%nat.
  - rewrite forallb_app, zeros_digits, decimal_digits. reflexivity.
  - apply decimal_digits. }
assert (Hl : (S f < List.length m)%nat).
{ subst m.
  destruct (Nat.leb_spec (List.length (decimal n)) (S f)) as [Hle | Hlt].
  - rewrite length_app. unfold zeros. rewrite repeat_length.
    pose proof (decimal_nonempty n) as Hne.
    destruct (decimal n); [contradiction | simpl in *; lia].
  - exact Hlt. }
assert (Hv : digits_value m = n).
{ subst m. destruct (List.length (decimal n) <=? S f)%nat.
  - rewrite digits_value_app, digits_value_zeros, digits_value_decimal. lia.
  - apply digits_value_decimal. }
exists (firstn (List.length m - S f) m), (skipn (List.length m - S f) m).
split; [reflexivity |].
pose proof (firstn_skipn (List.length m - S f) m) as Hfs.
assert (Hboth : forallb is_digit (firstn (List.length m - S f) m) = true
                /\ forallb is_digit (skipn (List.length m - S f) m) = true).
{ rewrite <- Hfs, forallb_app in Hm. apply andb_true_iff in Hm. exact Hm. }
destruct Hboth as [H1 H2].
split; [exact H1 |]. split.
{ intros Hnil. apply (f_equal (@List.length _)) in Hnil.
  rewrite length_firstn in Hnil. simpl in Hnil. lia. }
split; [exact H2 |]. split.
{ rewrite length_skipn. lia. }
rewrite Hfs. exact Hv.
Qed.

End FixedValue.

(** X5: for every finite number [x = (-1)^s * m * 2^e] with
    [1e-12 <= |x| < 1e21], [fmt(x)] is a decimal [[-]digits[.digits]] that
    is read completely, has the sign of [x], at most six digits after the
    point, and denotes the multiple of [10^-6] nearest to [x] (the larger in
    magnitude of two nearest): with [|x| = num / den] and the string
    denoting [d / 10^k], [d * 10^(6-k)] is the integer [toFixed] rounds to
    and [2 * |d * 10^(6-k) * den - num * 10^6| <= den], so the value shown
    differs from [x] by at most [0.5e-6]. *)
Theorem fmt_shows_nearest_decimal (s : bool) (m : positive) (e : Z) :
  lt (Math_abs (S754_finite s m e)) tiny = false ->
  at_least_1e21 m e = false ->
  let '(neg, d, k, rest) := read_decimal (fmt (S754_finite s m e)) in
  neg = s /\ rest = [] /\ (k <= 6)%nat
  /\ (d * 10 ^ N.of_nat (6 - k))%N = round_scaled m e 6
  /\ (2 * Z.abs (Z.of_N (d * 10 ^ N.of_nat (6 - k)) * Zpos (den_of e)
                 - Zpos (num_of m e) * 10 ^ 6)
      <= Zpos (den_of e))%Z.
Proof.
  intros Ht Hl. unfold fmt. rewrite Ht. cbn [toFixed]. rewrite Hl.
  destruct (fixed_layout_parts (round_scaled m e 6) 5)
    as (a & b & -> & Ha & Hne & Hb & Hlen & Hv).
  rewrite app_assoc.
  rewrite strip_zeros_fraction;
    [| apply sign_prefix_no_dot, digits_no_dot; exact Ha
     | intros ->; discriminate Hlen].
  pose proof (toFixed_rounds_to_nearest m e 6) as [_ Hr]. cbv zeta in Hr.
  change (Z.of_nat 6) with 6%Z in Hr.
  destruct (all_zeros b) eqn:Hz.
  - rewrite app_nil_r, read_decimal_integer by assumption.
    assert (Hd : (digits_value a * 10 ^ N.of_nat (6 - 0))%N
                 = round_scaled m e 6).
    { rewrite <- Hv, digits_value_app, Hlen.
      rewrite (all_zeros_zeros b Hz), digits_value_zeros. cbn [Nat.sub]. lia. }
    repeat split; [lia | exact Hd |]. rewrite Hd. exact Hr.
  - destruct (strip_zeros_digits b Hb) as [Hsd [j Hj]].
    rewrite <- app_assoc.
    change ((dot_cu :: strip_zeros b)) with (dot_cu :: strip_zeros b).
    rewrite read_decimal_fraction by assumption.
    assert (Hk : (List.length (strip_zeros b) + j = 6)%nat).
    { rewrite <- Hlen. rewrite Hj at 2. rewrite length_app.
      unfold zeros. rewrite repeat_length. reflexivity. }
    assert (Hd : (digits_value (a ++ strip_zeros b)
                  * 10 ^ N.of_nat (6 - List.length (strip_zeros b)))%N
                 = round_scaled m e 6).
    { rewrite <- Hv. rewrite Hj at 3.
      rewrite app_assoc, (digits_value_app (a ++ strip_zeros b) (zeros j)).
      rewrite digits_value_zeros. unfold zeros at 1. rewrite repeat_length.
      replace (6 - List.length (strip_zeros b))%nat with j by lia. lia. }
    repeat split; [lia | exact Hd |]. rewrite Hd. exact Hr.
Qed.

Lemma fmt_shows_nearest_decimal_witness :
  lt (Math_abs (S754_finite false 7205759403792794 (-56))) tiny = false
  /\ at_least_1e21 7205759403792794 (-56) = false
  /\ let '(neg, d, k, rest) :=
       read_decimal (fmt (S754_finite false 7205759403792794 (-56))) in
     neg = false /\ rest = [] /\ (k <= 6)%nat
     /\ (d * 10 ^ N.of_nat (6 - k))%N = round_scaled 7205759403792794 (-56) 6
     /\ (2 * Z.abs (Z.of_N (d * 10 ^ N.of_nat (6 - k))
                    * Zpos (den_of (-56))
                    - Zpos (num_of 7205759403792794 (-56)) * 10 ^ 6)
         <= Zpos (den_of (-56)))%Z.
Proof.
  split; [vm_compute; reflexivity |].
  split; [vm_compute; reflexivity |].
  apply (fmt_shows_nearest_decimal false 7205759403792794 (-56));
    vm_compute; reflexivity.
Defined.

(** ** Further properties of the report *)

Section EntriesOrder.

Context {V : Type}.

Lemma insert_by_index_perm i (e : jsstring * V) l :
Permutation (insert_by_index i e l) ((i, e) :: l).
Proof.
induction l as [| [j e'] l IH]; [apply Permutation_refl |].
cbn [insert_by_index]. destruct (i <=? j)%N; [apply Permutation_refl |].
apply perm_trans with ((j, e') :: (i, e) :: l);
  [apply perm_skip; exact IH | apply perm_swap].
Qed.

Lemma index_entries_perm (o : obj V) :
Permutation (List.map snd (index_entries o))
            (List.filter (fun kv => is_index (fst kv)) o).
Proof.
induction o as [| [k v] o IH]; [apply Permutation_refl |].
cbn [index_entries List.filter fst]. unfold is_index at 1.
destruct (array_index k) as [i |]; [| exact IH].
apply perm_trans with (List.map snd ((i, (k, v)) :: index_entries o)).
- apply Permutation_map, insert_by_index_perm.
- cbn [List.map snd]. apply perm_skip. exact IH.
Qed.

Lemma filter_split_perm {A : Type} (p : A -> bool) (l : list A) :
Permutation (List.filter p l ++ List.filter (fun x => negb (p x)) l) l.
Proof.
induction l as [| x l IH]; [apply Permutation_refl |].
cbn [List.filter]. destruct (p x); cbn [negb app].
- apply perm_skip. exact IH.
- apply Permutation_sym, Permutation_cons_app, Permutation_sym. exact IH.
Qed.

(** [Object.entries] lists the properties of the object, each one once. *)
Lemma entries_perm (o : obj V) : Permutation (entries o) o.
Proof.
unfold entries.
apply perm_trans
  with (List.filter (fun kv => is_index (fst kv)) o
        ++ List.filter (fun kv => negb (is_index (fst kv))) o).
- apply Permutation_app_tail, index_entries_perm.
- apply (filter_split_perm (fun kv => is_index (fst kv))).
Qed.

Lemma insert_by_index_sorted i (e : jsstring * V) l :
StronglySorted (fun a b => (fst a <= fst b)%N) l ->
StronglySorted (fun a b => (fst a <= fst b)%N) (insert_by_index i e l).
Proof.
induction l as [| [j e'] l IH]; intros Hs.
- cbn [insert_by_index]. constructor; constructor.
- cbn [insert_by_index]. destruct (N.leb_spec i j) as [Hle | Hgt].
  + constructor; [exact Hs |].
    apply StronglySorted_inv in Hs as [_ Hall].
    constructor; [exact Hle |].
    apply Forall_impl with (2 := Hall). cbn [fst]. intros a Ha. lia.
  + apply StronglySorted_inv in Hs as [Hs Hall].
    constructor; [apply IH; exact Hs |].
    apply (Permutation_Forall (Permutation_sym (insert_by_index_perm i e l))).
    constructor; [cbn [fst]; lia | exact Hall].
Qed.

(** The array-index properties are listed in ascending numeric order. *)
Lemma index_entries_sorted (o : obj V) :
StronglySorted (fun a b => (fst a <= fst b)%N) (index_entries o).
Proof.
induction o as [| [k v] o IH]; [constructor |].
cbn [index_entries]. destruct (array_index k);
  [apply insert_by_index_sorted |]; exact IH.
Qed.

Lemma insert_by_index_keys i (e : jsstring * V) l :
array_index (fst e) = Some i ->
Forall (fun ie => array_index (fst (snd ie)) = Some (fst ie)) l ->
Forall (fun ie => array_index (fst (snd ie)) = Some (fst ie))
       (insert_by_index i e l).
Proof.
intros He Hl.
apply (Permutation_Forall (Permutation_sym (insert_by_index_perm i e l))).
constructor; [exact He | exact Hl].
Qed.

(** Each of them under the number its key writes. *)
Lemma index_entries_keys (o : obj V) :
Forall (fun ie => array_index (fst (snd ie)) = Some (fst ie))
       (index_entries o).
Proof.
induction o as [| [k v] o IH]; [constructor |].
cbn [index_entries]. destruct (array_index k) as [i |] eqn:E; [| exact IH].
apply insert_by_index_keys; [exact E | exact IH].
Qed.

End EntriesOrder.

(** X6: whatever the operation names are, every operation of the mapping is
    rendered exactly once: the captions are a rearrangement of the captions
    of the keys, and there are as many captions, tables and images as
    operations; an empty mapping gives none. *)
Theorem report_renders_each_operation_once
        (asset_href : jsstring -> jsstring) (data : ReportData) :
  let report := RegressionReport asset_href data in
  Permutation (captions report) (List.map caption_text (keys data))
  /\ List.length (captions report) = List.length data
  /\ List.length (elements_by_tag "table" report) = List.length data
  /\ List.length (image_sources report) = List.length data.
Proof.
  cbv zeta. rewrite report_captions, report_tables, report_images.
  rewrite !length_map, entries_length.
  split; [| repeat split].
  unfold keys. rewrite map_map.
  apply (Permutation_map (fun e => caption_text (fst e))), entries_perm.
Qed.

(** X7: the order of the operations in the report: first those whose name
    is an array index (a canonical decimal below [2^32 - 1]), in ascending
    numeric order, then all the others in the order of the mapping. *)
Theorem report_order
        (asset_href : jsstring -> jsstring) (data : ReportData) :
  captions (RegressionReport asset_href data)
  = List.map (fun ie => caption_text (fst (snd ie))) (index_entries data)
    ++ List.map (fun kv => caption_text (fst kv))
                (List.filter (fun kv => negb (is_index (fst kv))) data)
  /\ StronglySorted (fun a b => (fst a <= fst b)%N) (index_entries data)
  /\ Forall (fun ie => array_index (fst (snd ie)) = Some (fst ie))
            (index_entries data).
Proof.
  split; [| split].
  - rewrite report_captions. unfold entries. rewrite map_app, map_map.
    reflexivity.
  - apply index_entries_sorted.
  - apply index_entries_keys.
Qed.

(** X8: the head of every table has eleven columns, whatever the data; a
    body row has as many cells as the head has columns exactly when its
    model has five coefficients. *)
Theorem table_head_and_row_widths (ms : list Model) (m : Model) (idx : nat) :
  List.length (elements_by_tag "th" (operation_table ms)) = 11%nat
  /\ Nat.eqb (List.length (elements_by_tag "td" (model_row m idx)))
             (List.length (elements_by_tag "th" (operation_table ms)))
     = Nat.eqb (List.length (coef m)) 5.
Proof.
  assert (H : List.length (elements_by_tag "th" (operation_table ms)) = 11%nat).
  { rewrite operation_table_by_tag by reflexivity.
    cbn [String.eqb Ascii.eqb Bool.eqb app]. rewrite !app_nil_r.
    vm_compute. reflexivity. }
  split; [exact H |]. rewrite H, row_cells.
  destruct (Nat.eqb_spec (List.length (coef m)) 5) as [-> | Hn];
    [reflexivity |]. apply Nat.eqb_neq. lia.
Qed.

Section ParseBack.

Lemma digit_head_not_infinity r :
match r with c :: _ => is_digit c = true | [] => False end ->
startsWith r (js "Infinity") = false.
Proof.
destruct r as [| c r]; [contradiction |]. intros Hc.
change (js "Infinity") with (73%N :: js "nfinity").
cbn [startsWith].
assert (H : cu_eqb c 73%N = false).
{ apply cu_eqb_neq. intros ->. discriminate Hc. }
rewrite H. reflexivity.
Qed.

Lemma parseFloat_integer (s : bool) a :
forallb is_digit a = true -> a <> [] ->
parseFloat ((if s then js "-" else []) ++ a)
= of_decimal s (digits_value a) 0.
Proof.
intros Ha Hne. unfold parseFloat.
rewrite take_sign_signed by (apply digits_head; assumption).
rewrite digit_head_not_infinity by (apply digits_head; assumption).
rewrite <- (app_nil_r a) at 1.
rewrite span_digits_app by (exact Ha || exact I).
rewrite app_nil_r. destruct a as [| c a]; [contradiction | reflexivity].
Qed.

Lemma parseFloat_fraction (s : bool) a b :
forallb is_digit a = true -> a <> [] -> forallb is_digit b = true ->
parseFloat ((if s then js "-" else []) ++ a ++ dot_cu :: b)
= of_decimal s (digits_value (a ++ b)) (- Z.of_nat (List.length b)).
Proof.
intros Ha Hne Hb. unfold parseFloat.
rewrite take_sign_signed by (apply head_app, digits_head; assumption).
rewrite digit_head_not_infinity by (apply head_app, digits_head; assumption).
rewrite span_digits_app by (exact Ha || reflexivity).
change (cu_eqb dot_cu dot_cu) with true. cbv iota.
rewrite <- (app_nil_r b) at 1.
rewrite span_digits_app by (exact Hb || exact I).
destruct a as [| c a]; [contradiction |]. reflexivity.
Qed.

End ParseBack.

(** X9: for every finite number with [1e-12 <= |x| < 1e21], parsing
    [fmt(x)] back gives the binary64 value nearest to the decimal the string
    shows (a multiple of [10^-6] within [0.5e-6] of [x]), with the sign of [x]. *)
Theorem fmt_parses_to_shown_decimal (s : bool) (m : positive) (e : Z) :
  lt (Math_abs (S754_finite s m e)) tiny = false ->
  at_least_1e21 m e = false ->
  let '(neg, d, k, rest) := read_decimal (fmt (S754_finite s m e)) in
  parseFloat (fmt (S754_finite s m e)) = of_decimal s d (- Z.of_nat k).
Proof.
  intros Ht Hl. unfold fmt. rewrite Ht. cbn [toFixed]. rewrite Hl.
  destruct (fixed_layout_parts (round_scaled m e 6) 5)
    as (a & b & -> & Ha & Hne & Hb & Hlen & Hv).
  rewrite app_assoc.
  rewrite strip_zeros_fraction;
    [| apply sign_prefix_no_dot, digits_no_dot; exact Ha
     | intros ->; discriminate Hlen].
  destruct (all_zeros b) eqn:Hz.
  - rewrite app_nil_r, read_decimal_integer, parseFloat_integer by assumption.
    reflexivity.
  - destruct (strip_zeros_digits b Hb) as [Hsd _].
    rewrite <- app_assoc.
    rewrite read_decimal_fraction, parseFloat_fraction by assumption.
    reflexivity.
Qed.

Lemma fmt_parses_to_shown_decimal_witness :
  lt (Math_abs (S754_finite true 4503599627370496 (-51))) tiny = false
  /\ at_least_1e21 4503599627370496 (-51) = false
  /\ let '(neg, d, k, rest) :=
       read_decimal (fmt (S754_finite true 4503599627370496 (-51))) in
     parseFloat (fmt (S754_finite true 4503599627370496 (-51)))
     = of_decimal true d (- Z.of_nat k).
Proof.
  split; [vm_compute; reflexivity |].
  split; [vm_compute; reflexivity |].
  apply (fmt_parses_to_shown_decimal true 4503599627370496 (-51));
    vm_compute; reflexivity.
Defined.

Section Keys.

Variable asset_href : jsstring -> jsstring.

Lemma fragments_children cs :
(fix all (ns : list node) : list node :=
   match ns with
   | [] => []
   | c :: rest => fragments c ++ all rest
   end) cs = flat_map fragments cs.
Proof. induction cs as [| c cs IH]; [reflexivity |]. simpl. now rewrite IH. Qed.

Lemma fragments_Element t p cs :
fragments (Element t p cs) = flat_map fragments cs.
Proof. cbn [fragments]. now rewrite fragments_children. Qed.

Lemma fragments_Fragment k cs :
fragments (Fragment k cs) = Fragment k cs :: flat_map fragments cs.
Proof. cbn [fragments]. now rewrite fragments_children. Qed.

Lemma fragments_Many cs : fragments (Many cs) = flat_map fragments cs.
Proof. cbn [fragments]. now rewrite fragments_children. Qed.

Lemma fragments_row m idx : fragments (model_row m idx) = [].
Proof.
unfold model_row. rewrite fragments_Element. cbn [flat_map].
rewrite !fragments_Element, fragments_Many. cbn [flat_map fragments app].
unfold mapi. rewrite flat_map_map_from_empty; [reflexivity |].
intros c j. reflexivity.
Qed.

Lemma fragments_table ms : fragments (operation_table ms) = [].
Proof.
unfold operation_table. rewrite fragments_Element. cbn [flat_map].
change (fragments table_head) with (@nil node).
rewrite fragments_Element. cbn [flat_map app]. rewrite fragments_Many.
unfold mapi. rewrite flat_map_map_from_empty; [reflexivity |].
intros m j. apply fragments_row.
Qed.

Lemma fragments_section e :
fragments (operation_section asset_href e) = [operation_section asset_href e].
Proof.
destruct e as [op info]. cbn [operation_section].
rewrite fragments_Fragment. cbn [flat_map]. rewrite fragments_table.
reflexivity.
Qed.

Lemma fragments_report data :
List.map key_of (fragments (RegressionReport asset_href data))
= None :: None
    :: List.map (fun e => Some (KeyStr (fst e))) (entries data).
Proof.
unfold RegressionReport. rewrite fragments_Fragment.
cbn [List.map key_of flat_map]. f_equal.
rewrite !fragments_Element. cbn [flat_map].
rewrite fragments_Element. cbn [flat_map].
change (fragments Intro) with [Intro].
rewrite fragments_Many.
rewrite flat_map_concat_map, map_map, <- flat_map_concat_map.
rewrite (flat_map_singletons _ (operation_section asset_href))
  by apply fragments_section.
cbn [fragments app]. rewrite !app_nil_r. cbn [List.map key_of]. f_equal.
rewrite map_map. apply map_ext. intros [op info]. reflexivity.
Qed.

Lemma existsb_eqb_In k ks :
existsb (JsString.eqb k) ks = true <-> In k ks.
Proof.
rewrite existsb_exists. split.
- intros (x & Hx & He). apply jsstring_eqb_eq in He. now subst x.
- intros H. exists k. split; [exact H | apply jsstring_eqb_refl].
Qed.

Lemma distinct_NoDup ks : distinct ks = true -> NoDup ks.
Proof.
induction ks as [| k ks IH]; [constructor |].
cbn [distinct]. intros H. apply andb_true_iff in H as [Hk Hd].
constructor; [| auto]. intros Hin. apply existsb_eqb_In in Hin.
rewrite Hin in Hk. discriminate Hk.
Qed.

Lemma map_from_seq {A B : Type} (f : nat -> B) i (xs : list A) :
map_from (fun _ j => f j) i xs = List.map f (seq i (List.length xs)).
Proof.
revert i. induction xs as [| x xs IH]; intros i; [reflexivity |].
cbn [map_from List.length seq List.map]. now rewrite IH.
Qed.

Lemma row_keys ms :
List.map key_of (body_rows (operation_table ms))
= List.map (fun i => Some (KeyIdx i)) (seq 0 (List.length ms)).
Proof.
rewrite body_rows_operation_table. unfold mapi. rewrite map_map_from.
rewrite <- (map_from_seq (fun i => Some (KeyIdx i)) 0 ms).
apply map_from_ext. intros m j. reflexivity.
Qed.

End Keys.

(** X10: the keys React is given are unique among siblings: the fragments
    of the operations carry the operation names, pairwise different when
    the keys of the mapping are (as those of an object are), and the body
    rows of a table carry their indices [0, 1, ..., n-1]. *)
Theorem sibling_keys_unique
        (asset_href : jsstring -> jsstring) (data : ReportData)
        (ms : list Model) :
  distinct (keys data) = true ->
  List.map key_of (fragments (RegressionReport asset_href data))
  = None :: None :: List.map (fun e => Some (KeyStr (fst e))) (entries data)
  /\ NoDup (List.map fst (entries data))
  /\ List.map key_of (body_rows (operation_table ms))
     = List.map (fun i => Some (KeyIdx i)) (seq 0 (List.length ms))
  /\ NoDup (seq 0 (List.length ms)).
Proof.
  intros Hd. split; [apply fragments_report |]. split.
  - apply (Permutation_NoDup (l := keys data)).
    + unfold keys. apply Permutation_map, Permutation_sym, entries_perm.
    + apply distinct_NoDup. exact Hd.
  - split; [apply row_keys | apply seq_NoDup].
Qed.

Lemma sibling_keys_unique_witness :
  distinct (keys sample_members) = true
  /\ NoDup (List.map fst (entries sample_members)).
Proof.
  split; [vm_compute; reflexivity |].
  apply (sibling_keys_unique (fun rel => rel) sample_members []).
  vm_compute. reflexivity.
Defined.
